(** * Selective backup for machine migration: the file-selection engine

    A shallow embedding of [migration_prep.py] (class [MigrationPrep] and
    [main]) and the properties of its classifier and of its traversal.

    - Strings are [string]; a path below the source root is the list of its
      components ([Path.name] is the last one, [str(relative_to(source_dir))]
      joins them with a slash).
    - The two rule sets written as Python sets ([skip_dirs], [keep_dotfiles])
      and the per-directory gitignore set are [gset string]; the two rule
      lists ([skip_patterns], [keep_patterns]) are lists.
    - [self.stats] and everything the run does to the outside world (log
      records, files written to the destination, the directories it opens)
      are threaded through the calls as an explicit [state].
    - The source tree is an inductive [entry]; what the file system may
      answer to each query of the code (unreadable [.gitignore], directory
      that cannot be searched or listed, entry whose type query raises, copy
      that fails before or after it has created the destination file) is
      part of that tree. *)

From Stdlib Require Import ZArith Ascii String List Bool Lia.
From stdpp Require Import base decidable list strings gmap.

Import ListNotations.
Local Open Scope string_scope.
Local Open Scope list_scope.
Local Open Scope Z_scope.

(** ** Paths *)

Definition path := list string.

(** [Path.name]: the final component. *)
Definition name (p : path) : string := List.last p "".

(** [str(p.relative_to(self.source_dir))]. *)
Definition relative_path (p : path) : string := String.concat "/" p.

(** [str.startswith]. *)
Definition startswith (s pre : string) : bool := String.prefix pre s.

(** ** Shell-style matching: Python's [fnmatch.fnmatch] on POSIX

    [fnmatch.fnmatch] normalises case (the identity on POSIX), translates the
    pattern to a regular expression anchored at both ends and matches the
    whole name.  [translate] below produces the same tokens as
    [fnmatch.translate]: a run of stars is one star, a question mark is any
    character, a bracket with no closing bracket is a literal bracket, and a
    bracket expression is a (possibly negated) set of characters and
    ranges.  A character is a code point below 256. *)
Module Fnmatch.

Inductive item :=
| Single (c : ascii)
| Range (lo hi : ascii).

Inductive token :=
| Star
| AnyChar
| Lit (c : ascii)
| Class (negated : bool) (items : list item).

Definition code (c : ascii) : N := N_of_ascii c.

Definition same (c d : ascii) : bool := Ascii.eqb c d.

(** The end of a bracket expression: [j] skips a leading [!], then a
    leading closing bracket, then runs to the next closing bracket.
    Returns the text between the brackets and what follows. *)
Fixpoint until_close (s : list ascii) : option (list ascii * list ascii) :=
  match s with
  | [] => None
  | c :: s' =>
      if same c "]"%char then Some ([], s')
      else match until_close s' with
           | Some (stuff, rest) => Some (c :: stuff, rest)
           | None => None
           end
  end.

Definition keep_first (c : ascii) (r : option (list ascii * list ascii)) :=
  match r with
  | Some (stuff, rest) => Some (c :: stuff, rest)
  | None => None
  end.

Definition bracket (s : list ascii) : option (list ascii * list ascii) :=
  match s with
  | c :: s1 =>
      if same c "!"%char then
        match s1 with
        | d :: s2 => if same d "]"%char then keep_first c (keep_first d (until_close s2))
                     else keep_first c (until_close s1)
        | [] => None
        end
      else if same c "]"%char then keep_first c (until_close s1)
      else until_close s
  | [] => None
  end.

(** The members of a set: [a-b] is a range when both ends are present (an
    empty range, [a] above [b], is dropped by [translate] and matches
    nothing); every other character, a first or last hyphen included,
    stands for itself. *)
Fixpoint items_of (fuel : nat) (s : list ascii) : list item :=
  match fuel with
  | O => []
  | S fuel' =>
      match s with
      | lo :: h :: hi :: s' =>
          if same h "-"%char then Range lo hi :: items_of fuel' s'
          else Single lo :: items_of fuel' (h :: hi :: s')
      | c :: s' => Single c :: items_of fuel' s'
      | [] => []
      end
  end.

Definition empty_range (i : item) : bool :=
  match i with
  | Range lo hi => (code hi <? code lo)%N
  | Single _ => false
  end.

Fixpoint after_empty_ranges (items : list item) : list item :=
  match items with
  | i :: rest => if empty_range i then after_empty_ranges rest else items
  | [] => []
  end.

(** [translate] takes the empty ranges out before it looks at the first
    character of the set: a set that opens with empty ranges followed by
    [!] is negated like one that opens with [!].  When that [!] was the
    lower end of a range, the hyphen and the upper end are left as two
    characters. *)
Definition class_of (stuff : list ascii) : token :=
  match stuff with
  | c :: s' =>
      if same c "!"%char then Class true (items_of (length s') s')
      else
        match after_empty_ranges (items_of (length stuff) stuff) with
        | Single b :: rest =>
            if same b "!"%char then Class true rest
            else Class false (Single b :: rest)
        | Range lo hi :: rest =>
            if same lo "!"%char
            then Class true (Single "-"%char :: Single hi :: rest)
            else Class false (Range lo hi :: rest)
        | [] => Class false []
        end
  | [] => Class false []
  end.

Fixpoint translate (fuel : nat) (pat : list ascii) : list token :=
  match fuel with
  | O => []
  | S fuel' =>
      match pat with
      | [] => []
      | c :: rest =>
          if same c "*"%char then
            match translate fuel' rest with
            | Star :: ts => Star :: ts
            | ts => Star :: ts
            end
          else if same c "?"%char then AnyChar :: translate fuel' rest
          else if same c "["%char then
            match bracket rest with
            | Some (stuff, rest') => class_of stuff :: translate fuel' rest'
            | None => Lit c :: translate fuel' rest
            end
          else Lit c :: translate fuel' rest
      end
  end.

Definition in_item (c : ascii) (i : item) : bool :=
  match i with
  | Single d => same c d
  | Range lo hi => (code lo <=? code c)%N && (code c <=? code hi)%N
  end.

Definition in_class (negated : bool) (items : list item) (c : ascii) : bool :=
  xorb negated (existsb (in_item c) items).

(** Matching the whole name against the whole pattern. *)
Fixpoint matches (ts : list token) (s : list ascii) {struct ts} : bool :=
  match ts with
  | [] => match s with [] => true | _ => false end
  | Star :: ts' =>
      (fix star (s : list ascii) : bool :=
         matches ts' s ||
         match s with
         | [] => false
         | _ :: s' => star s'
         end) s
  | AnyChar :: ts' =>
      match s with
      | _ :: s' => matches ts' s'
      | [] => false
      end
  | Lit c :: ts' =>
      match s with
      | d :: s' => same c d && matches ts' s'
      | [] => false
      end
  | Class negated items :: ts' =>
      match s with
      | d :: s' => in_class negated items d && matches ts' s'
      | [] => false
      end
  end.

Definition fnmatch (filename pat : string) : bool :=
  let p := list_ascii_of_string pat in
  matches (translate (length p) p) (list_ascii_of_string filename).

End Fnmatch.

Definition fnmatch := Fnmatch.fnmatch.

(** ** The rule set of [MigrationPrep.__init__] *)

Record MigrationPrep := {
  skip_dirs : gset string;
  skip_patterns : list string;
  keep_patterns : list string;
  keep_dotfiles : gset string
}.

Definition default_skip_dirs : list string :=
  [ "__pycache__"; ".pytest_cache"; ".mypy_cache"; ".tox"; "node_modules";
    ".npm"; ".yarn"; "dist"; "build"; "target"; ".venv"; "venv"; "env";
    ".env"; "virtualenv"; ".git"; ".svn"; ".hg"; ".bzr"; ".Rproj.user";
    ".ropeproject"; "cmake-build-debug"; "cmake-build-release"; ".gradle";
    ".m2"; ".ivy2"; ".cargo/registry"; ".cargo/git"; "zig-cache"; "zig-out";
    ".stack-work"; "_build"; "deps"; "_deps"; ".elixir_ls"; ".mix";
    "coverage"; ".coverage"; ".nyc_output"; "logs"; "*.log"; "tmp"; "temp";
    ".tmp"; ".temp" ].

Definition default_skip_patterns : list string :=
  [ "*.pyc"; "*.pyo"; "*.pyd"; "*.so"; "*.dll"; "*.dylib"; "*.o"; "*.obj";
    "*.class"; "*.jar"; "*.war"; "*.beam"; "*.plt"; "*.exe"; "*.app";
    "*.dmg"; "*.pkg"; "*.deb"; "*.rpm"; "*.zip"; "*.tar.gz"; "*.tar.bz2";
    "*.7z"; "*.rar"; "*.swp"; "*.swo"; "*~"; ".DS_Store"; "Thumbs.db";
    "*.tmp"; "*.temp"; "*.cache"; "*.log"; "core"; "core.*"; "*.core";
    "*.lock"; "package-lock.json"; "yarn.lock"; "pnpm-lock.yaml"; "*.min.js";
    "*.min.css"; "*.map"; "*.min.js.map"; "*.min.css.map" ].

Definition default_keep_patterns : list string :=
  [ ".*rc"; ".*profile"; ".*_profile"; ".*_history"; ".env*"; ".environment";
    "environment.*"; "*.conf"; "*.config"; "config.*"; "configuration.*";
    ".gitconfig"; ".gitignore_global"; ".ssh/config"; "requirements.txt";
    "Pipfile"; "pyproject.toml"; "package.json"; "Cargo.toml"; "mix.exs";
    "build.zig"; "Makefile"; "CMakeLists.txt"; "Dockerfile*"; "flake.nix";
    "shell.nix"; "default.nix"; "*.md"; "*.rst"; "*.txt"; "LICENSE*";
    "README*"; "tsconfig.json"; "webpack.config.js"; "vite.config.*" ].

Definition default_keep_dotfiles : list string :=
  [ ".ssh"; ".gnupg"; ".gitconfig"; ".vimrc"; ".nvim"; ".bashrc"; ".zshrc";
    ".profile"; ".bash_profile"; ".tmux.conf"; ".screenrc"; ".inputrc";
    ".config"; ".local/share"; ".mozilla"; ".thunderbird"; ".aws"; ".docker";
    ".kube"; ".terraform.d"; ".cargo/config.toml"; ".rustup/settings.toml";
    ".npmrc"; ".yarnrc"; ".pip"; ".poetry"; ".mix"; ".hex"; ".iex.exs";
    ".emacs.d"; ".doom.d"; ".spacemacs.d" ].

(** [MigrationPrep(source, destination)]: the rule set every run starts
    with. *)
Definition init : MigrationPrep := {|
  skip_dirs := list_to_set default_skip_dirs;
  skip_patterns := default_skip_patterns;
  keep_patterns := default_keep_patterns;
  keep_dotfiles := list_to_set default_keep_dotfiles
|}.

(** ** The classifier *)

(** [for pattern in patterns: if fnmatch.fnmatch(filename, pattern): return ...] *)
Fixpoint matches_any (filename : string) (patterns : list string) : bool :=
  match patterns with
  | [] => false
  | pattern :: rest =>
      if fnmatch filename pattern then true else matches_any filename rest
  end.

(** The gitignore loop of [should_skip_file]: each pattern is tried on the
    relative path, then on the bare name. *)
Fixpoint gitignore_hit (relative filename : string) (patterns : list string) : bool :=
  match patterns with
  | [] => false
  | pattern :: rest =>
      if fnmatch relative pattern || fnmatch filename pattern then true
      else gitignore_hit relative filename rest
  end.

Definition should_skip_file (self : MigrationPrep) (file_path : path)
    (gitignore_patterns : gset string) : bool :=
  let filename := name file_path in
  let relative := relative_path file_path in
  if matches_any filename (keep_patterns self) then false
  else if gitignore_hit relative filename (elements gitignore_patterns) then true
  else if matches_any filename (skip_patterns self) then true
  else false.

(** The keep loop of [should_skip_directory]. *)
Fixpoint keep_hit (relative dirname : string) (keeps : list string) : bool :=
  match keeps with
  | [] => false
  | keep_pattern :: rest =>
      if startswith relative keep_pattern || String.eqb dirname keep_pattern
      then true
      else keep_hit relative dirname rest
  end.

Definition should_skip_directory (self : MigrationPrep) (dir_path : path) : bool :=
  let dirname := name dir_path in
  let relative := relative_path dir_path in
  if keep_hit relative dirname (elements (keep_dotfiles self)) then false
  else if bool_decide (dirname ∈ skip_dirs self) then true
  else if matches_any dirname (skip_patterns self) then true
  else false.

(** ** The source tree, as the traversal sees it *)

(** What [directory / ".gitignore"] is when [load_gitignore_patterns] looks
    at it: absent, read to the end, raising in [open] or during the read
    after the given lines were already handed to the loop, or out of reach:
    [gitignore_file.exists()] itself raises, as it does with a permission
    error when the directory cannot be searched. *)
Inductive gitignore_file :=
| NoGitignore
| Gitignore (lines : list string)
| UnreadableGitignore (lines_before_failure : list string)
| UnreachableGitignore.

(** What [shutil.copy2] followed by [src.stat()] does for a file: both
    succeed; [copy2] raises before it has created the destination file;
    [copy2] returns and the [stat] raises; [copy2] creates the destination
    file and then raises (a failing write, or [copystat]). *)
Inductive copy_outcome := CopyOk | CopyFails | StatFails | PartialCopyFails.

Inductive link_target :=
| ToFile (size : Z) (copy : copy_outcome)
| ToDirectory
| ToOther
| Dangling.

Inductive failure := PermissionError | OtherError.

(** One directory entry.  [Special] is an entry that is neither a regular
    file nor a directory (socket, fifo, device); [Unreadable] is an entry on
    which the first type query of the loop body raises.  A directory that
    cannot be enumerated (its [iterdir] raises) has [listable = false]. *)
#[local] Unset Elimination Schemes.
Inductive entry :=
| File (nm : string) (size : Z) (copy : copy_outcome)
| Directory (nm : string) (gitignore : gitignore_file) (listable : bool)
    (entries : list entry)
| Symlink (nm : string) (target : link_target)
| Special (nm : string)
| Unreadable (nm : string) (err : failure).
#[local] Set Elimination Schemes.

(** Induction on the source tree: the entries of a directory satisfy the
    property before the directory does. *)
Section entry_induction.

Variable P : entry -> Prop.
Hypothesis file_case : forall nm size copy, P (File nm size copy).
Hypothesis directory_case :
  forall nm gitignore listable entries,
    Forall P entries -> P (Directory nm gitignore listable entries).
Hypothesis symlink_case : forall nm target, P (Symlink nm target).
Hypothesis special_case : forall nm, P (Special nm).
Hypothesis unreadable_case : forall nm err, P (Unreadable nm err).

Fixpoint entry_ind (node : entry) : P node :=
  match node with
  | File nm size copy => file_case nm size copy
  | Directory nm gitignore listable entries =>
      directory_case nm gitignore listable entries
        ((fix all (items : list entry) : Forall P items :=
            match items with
            | [] => @List.Forall_nil _ P
            | item :: rest => @List.Forall_cons _ P item rest (entry_ind item) (all rest)
            end) entries)
  | Symlink nm target => symlink_case nm target
  | Special nm => special_case nm
  | Unreadable nm err => unreadable_case nm err
  end.

End entry_induction.

Definition entry_name (item : entry) : string :=
  match item with
  | File nm _ _ | Directory nm _ _ _ | Symlink nm _ | Special nm
  | Unreadable nm _ => nm
  end.

(** ** The state of a run *)

Record stats := {
  copied : Z;
  skipped : Z;
  errors : Z;
  size_copied : Z
}.

Inductive severity := INFO | WARNING | ERROR.

(** The log records of the program, one constructor per format string. *)
Inductive message :=
| CouldNotReadGitignore (directory : path)
| FailedToCopy (src : path)
| MaximumRecursionDepth (src_dir : path)
| SkippingDirectory (item : path)
| PermissionDenied (item : path)
| ErrorProcessing (item : path)
| ErrorScanningDirectory (src_dir : path)
| CouldNotCreateBackupInfo
| StartingBackup
| SummaryRule
| SummaryTitle
| FilesCopied (n : Z)
| FilesSkipped (n : Z)
| Errors (n : Z)
| SizeCopied (bytes : Z)
| Duration
| BackupLocation
| DryRunMode
| DryRunCompleted
| BackupFailed.

(** What a run does, in the order it does it.  [Log], [Copy2] and
    [PartialCopy] are the effects on the outside world ([Copy2 p]:
    [shutil.copy2] returned, the file at [p] below the source root now
    exists at [p] below the backup root; [PartialCopy p]: [shutil.copy2]
    raised after it had created that file); the other four record the calls
    of the classifier and the directories the traversal opens. *)
Inductive event :=
| Log (lvl : severity) (msg : message)
| Copy2 (src : path)
| LoadGitignore (directory : path)
| Iterdir (src_dir : path)
| ClassifyFile (file_path : path) (skip : bool)
| ClassifyDirectory (dir_path : path) (skip : bool)
| PartialCopy (src : path).

Record state := {
  st_stats : stats;
  st_trace : list event
}.

Definition no_stats : stats :=
  {| copied := 0; skipped := 0; errors := 0; size_copied := 0 |}.

(** [self.stats] after [__init__], nothing done yet. *)
Definition initial : state := {| st_stats := no_stats; st_trace := [] |}.

Definition emit (e : event) (st : state) : state :=
  {| st_stats := st_stats st; st_trace := st_trace st ++ [e] |}.

Definition log (lvl : severity) (msg : message) (st : state) : state :=
  emit (Log lvl msg) st.

Definition with_stats (f : stats -> stats) (st : state) : state :=
  {| st_stats := f (st_stats st); st_trace := st_trace st |}.

(** [self.stats["copied"] += 1] and its three siblings. *)
Definition count_copied : state -> state :=
  with_stats (fun s => {| copied := copied s + 1; skipped := skipped s;
                          errors := errors s; size_copied := size_copied s |}).

Definition count_skipped : state -> state :=
  with_stats (fun s => {| copied := copied s; skipped := skipped s + 1;
                          errors := errors s; size_copied := size_copied s |}).

Definition count_error : state -> state :=
  with_stats (fun s => {| copied := copied s; skipped := skipped s;
                          errors := errors s + 1; size_copied := size_copied s |}).

Definition add_size (n : Z) : state -> state :=
  with_stats (fun s => {| copied := copied s; skipped := skipped s;
                          errors := errors s; size_copied := size_copied s + n |}).

(** ** [load_gitignore_patterns] *)

(** The characters [str.strip] removes, among the code points below 256:
    tab to carriage return, the four separators, the space, next line and
    the no-break space. *)
Definition is_space (c : ascii) : bool :=
  let n := N_of_ascii c in
  ((9 <=? n) && (n <=? 13) || (28 <=? n) && (n <=? 32) ||
   (n =? 133) || (n =? 160))%N.

Fixpoint lstrip (s : string) : string :=
  match s with
  | String c s' => if is_space c then lstrip s' else s
  | EmptyString => EmptyString
  end.

Fixpoint rstrip (s : string) : string :=
  match s with
  | String c s' =>
      match rstrip s' with
      | EmptyString => if is_space c then EmptyString else String c EmptyString
      | r => String c r
      end
  | EmptyString => EmptyString
  end.

Definition strip (s : string) : string := rstrip (lstrip s).

Definition is_empty (s : string) : bool :=
  match s with EmptyString => true | _ => false end.

(** [for line in f: ...]: the loop over the lines, adding to [patterns]. *)
Fixpoint add_lines (lines : list string) (patterns : gset string) : gset string :=
  match lines with
  | [] => patterns
  | line :: rest =>
      let line := strip line in
      if negb (is_empty line) && negb (startswith line "#")
      then add_lines rest ({[ line ]} ∪ patterns)
      else add_lines rest patterns
  end.

(** The result is the set returned, or [None] when the call raises: the
    test [gitignore_file.exists()] is outside the [try]. *)
Definition load_gitignore_patterns (directory : path) (gitignore : gitignore_file)
    (st : state) : option (gset string) * state :=
  let st := emit (LoadGitignore directory) st in
  match gitignore with
  | NoGitignore => (Some ∅, st)
  | Gitignore lines => (Some (add_lines lines ∅), st)
  | UnreadableGitignore lines =>
      (Some (add_lines lines ∅),
       log WARNING (CouldNotReadGitignore directory) st)
  | UnreachableGitignore => (None, st)
  end.

(** ** [copy_file_safely]

    The destination [dst] is [dst_dir / item.name] all the way down, that is
    the backup root followed by the same relative path as [src], so [src]
    names both. *)
Definition copy_file_safely (src : path) (size : Z) (copy : copy_outcome)
    (st : state) : bool * state :=
  match copy with
  | CopyOk => (true, add_size size (count_copied (emit (Copy2 src) st)))
  | CopyFails => (false, count_error (log ERROR (FailedToCopy src) st))
  | StatFails =>
      (false, count_error (log ERROR (FailedToCopy src)
                             (count_copied (emit (Copy2 src) st))))
  | PartialCopyFails =>
      (false, count_error (log ERROR (FailedToCopy src)
                             (emit (PartialCopy src) st)))
  end.

(** ** [backup_directory] *)

(** The branch of the loop body shared by regular files and by symbolic
    links to files. *)
Definition backup_file (self : MigrationPrep) (item : path)
    (gitignore_patterns : gset string) (size : Z) (copy : copy_outcome)
    (st : state) : state :=
  let skip := should_skip_file self item gitignore_patterns in
  let st := emit (ClassifyFile item skip) st in
  if negb skip then snd (copy_file_safely item size copy st)
  else count_skipped st.

(** The loop body for every entry that is not a directory. *)
Definition backup_leaf (self : MigrationPrep) (src_dir : path)
    (gitignore_patterns : gset string) (item : entry) (st : state) : state :=
  let item_path := src_dir ++ [entry_name item] in
  match item with
  | Symlink _ (ToFile size copy) =>
      backup_file self item_path gitignore_patterns size copy st
  | Symlink _ _ => st
  | File _ size copy =>
      backup_file self item_path gitignore_patterns size copy st
  | Unreadable _ PermissionError =>
      count_error (log WARNING (PermissionDenied item_path) st)
  | Unreadable _ OtherError =>
      count_error (log ERROR (ErrorProcessing item_path) st)
  | _ => st
  end.

(** [node] is what lies at [src_dir]; the call from [run_backup] has the
    source root there, every other call a directory entry.  A source root
    that is not a directory has no [.gitignore] below it and makes
    [iterdir] raise. *)
Fixpoint backup_directory (self : MigrationPrep) (src_dir : path) (node : entry)
    (level : Z) (st : state) {struct node} : state :=
  if 10 <? level then log WARNING (MaximumRecursionDepth src_dir) st
  else
    match node with
    | Directory _ gitignore listable entries =>
        match load_gitignore_patterns src_dir gitignore st with
        | (None, st) =>
            count_error (log ERROR (ErrorScanningDirectory src_dir) st)
        | (Some gitignore_patterns, st) =>
        let st := emit (Iterdir src_dir) st in
        if listable then
          (fix iterdir (items : list entry) (st : state) {struct items} : state :=
             match items with
             | [] => st
             | item :: rest =>
                 iterdir rest
                   match item with
                   | Directory nm _ _ _ =>
                       let item_path := src_dir ++ [nm] in
                       let skip := should_skip_directory self item_path in
                       let st := emit (ClassifyDirectory item_path skip) st in
                       if negb skip
                       then backup_directory self item_path item (level + 1) st
                       else count_skipped
                              (log INFO (SkippingDirectory item_path) st)
                   | _ => backup_leaf self src_dir gitignore_patterns item st
                   end
             end) entries st
        else count_error (log ERROR (ErrorScanningDirectory src_dir) st)
        end
    | _ =>
        let '(_, st) := load_gitignore_patterns src_dir NoGitignore st in
        let st := emit (Iterdir src_dir) st in
        count_error (log ERROR (ErrorScanningDirectory src_dir) st)
    end.

(** The loop body of [backup_directory], for one [item] of [src_dir]. *)
Definition backup_item (self : MigrationPrep) (src_dir : path)
    (gitignore_patterns : gset string) (level : Z) (item : entry)
    (st : state) : state :=
  match item with
  | Directory nm _ _ _ =>
      let item_path := src_dir ++ [nm] in
      let skip := should_skip_directory self item_path in
      let st := emit (ClassifyDirectory item_path skip) st in
      if negb skip then backup_directory self item_path item (level + 1) st
      else count_skipped (log INFO (SkippingDirectory item_path) st)
  | _ => backup_leaf self src_dir gitignore_patterns item st
  end.

(** The loop [for item in src_dir.iterdir()]. *)
Definition backup_items (self : MigrationPrep) (src_dir : path)
    (gitignore_patterns : gset string) (level : Z) (items : list entry)
    (st : state) : state :=
  fold_left (fun st item => backup_item self src_dir gitignore_patterns level item st)
    items st.

(** ** [create_backup_info], [run_backup] and [main] *)

Definition create_backup_info (info_ok : bool) (st : state) : state :=
  if info_ok then st else log ERROR CouldNotCreateBackupInfo st.

Inductive outcome :=
| Returned (st : state)
| Raised (st : state).

(** [source] is what lies at the resolved source path, [None] when nothing
    does; [mkdir_ok] says whether the backup root can be created. *)
Definition run_backup (self : MigrationPrep) (source : option entry)
    (mkdir_ok info_ok : bool) (st : state) : outcome :=
  let st := log INFO StartingBackup st in
  match source with
  | None => Raised st
  | Some root =>
      if mkdir_ok then
        let st := backup_directory self [] root 0 st in
        let st := create_backup_info info_ok st in
        let st := log INFO SummaryRule st in
        let st := log INFO SummaryTitle st in
        let st := log INFO SummaryRule st in
        let st := log INFO (FilesCopied (copied (st_stats st))) st in
        let st := log INFO (FilesSkipped (skipped (st_stats st))) st in
        let st := log INFO (Errors (errors (st_stats st))) st in
        let st := log INFO (SizeCopied (size_copied (st_stats st))) st in
        let st := log INFO Duration st in
        let st := log INFO BackupLocation st in
        Returned st
      else Raised st
  end.

(** [main], with the parsed flags and the file system it meets; the result
    is the exit status and the final state.  [--verbose] only lowers the
    threshold of the logger, and no record of the program is below INFO. *)
Definition main (dry_run verbose : bool) (source : option entry)
    (mkdir_ok info_ok : bool) : Z * state :=
  let st := initial in
  let st := if dry_run then log INFO DryRunMode st else st in
  let backup := init in
  if negb dry_run then
    match run_backup backup source mkdir_ok info_ok st with
    | Returned st => (0, st)
    | Raised st => (1, log ERROR BackupFailed st)
    end
  else (0, log INFO DryRunCompleted st).

(** ** The vocabulary of the properties *)

(** The three conditions the classifier tests, as propositions. *)

Definition keep_pattern_applies (self : MigrationPrep) (file_path : path) : Prop :=
  exists pattern, pattern ∈ keep_patterns self /\
    fnmatch (name file_path) pattern = true.

Definition gitignore_applies (gitignore_patterns : gset string) (file_path : path) : Prop :=
  exists pattern, pattern ∈ gitignore_patterns /\
    (fnmatch (relative_path file_path) pattern = true \/
     fnmatch (name file_path) pattern = true).

Definition skip_pattern_applies (self : MigrationPrep) (p : path) : Prop :=
  exists pattern, pattern ∈ skip_patterns self /\
    fnmatch (name p) pattern = true.

Definition keep_dotfile_applies (self : MigrationPrep) (dir_path : path) : Prop :=
  exists keep_pattern, keep_pattern ∈ keep_dotfiles self /\
    ((exists rest, relative_path dir_path = String.append keep_pattern rest) \/
     name dir_path = keep_pattern).


(** The directory in whose visit an event happens: the directory itself for
    its [.gitignore] and its listing, the parent for what is done to an
    entry.  The warning of the depth ceiling is the one record of a call
    that visits nothing. *)
Definition visited_directory (e : event) : option path :=
  match e with
  | LoadGitignore d | Iterdir d => Some d
  | ClassifyFile q _ | Copy2 q | ClassifyDirectory q _ | PartialCopy q =>
      Some (removelast q)
  | Log _ (CouldNotReadGitignore d) | Log _ (ErrorScanningDirectory d) => Some d
  | Log _ (FailedToCopy q) | Log _ (SkippingDirectory q)
  | Log _ (PermissionDenied q) | Log _ (ErrorProcessing q) => Some (removelast q)
  | Log _ _ => None
  end.

(** [f] adds only events that satisfy [Q]. *)
Definition preserves (Q : event -> Prop) (f : state -> state) : Prop :=
  forall st, Forall Q (st_trace st) -> Forall Q (st_trace (f st)).

Definition at_most_ten_deep (e : event) : Prop :=
  forall d, visited_directory e = Some d -> (length d <= 10)%nat.

(** A chain of [n] directories called [d], the last one holding
    [innermost]. *)
Fixpoint nested (n : nat) (innermost : list entry) : list entry :=
  match n with
  | O => innermost
  | S n' => [Directory "d" NoGitignore true (nested n' innermost)]
  end.

(** A source root over ten nested directories; the tenth holds a file and an
    eleventh directory with a file of its own. *)
Definition deep_tree : entry :=
  Directory "" NoGitignore true
    (nested 10 [ File "kept.c" 1 CopyOk;
                 Directory "d" NoGitignore true [File "lost.c" 1 CopyOk] ]).

(** The tree with the [.gitignore] of the directory at [q] (below the node)
    replaced by [gitignore']. *)
Fixpoint set_gitignore (q : path) (gitignore' : gitignore_file) (node : entry)
    {struct q} : entry :=
  match node with
  | Directory nm gitignore listable entries =>
      match q with
      | [] => Directory nm gitignore' listable entries
      | x :: q' =>
          Directory nm gitignore listable
            (map (fun item => if String.eqb (entry_name item) x
                              then set_gitignore q' gitignore' item
                              else item) entries)
      end
  | _ => node
  end.

(** [gitignore_file.exists()] returns. *)
Definition reachable (gitignore : gitignore_file) : bool :=
  match gitignore with
  | UnreachableGitignore => false
  | _ => true
  end.

(** The directory at [q] (below the node) can be searched: the existence
    test of its [.gitignore] returns. *)
Fixpoint searchable_at (q : path) (node : entry) {struct q} : bool :=
  match node with
  | Directory _ gitignore _ entries =>
      match q with
      | [] => reachable gitignore
      | x :: q' =>
          forallb (fun item => if String.eqb (entry_name item) x
                               then searchable_at q' item
                               else true) entries
      end
  | _ => true
  end.

(** The events that may depend on the [.gitignore] of directory [d]: its
    loading, and the classification and copy of the files directly in [d]. *)
Definition uses_gitignore_of (d : path) (e : event) : bool :=
  match e with
  | LoadGitignore d' | Log _ (CouldNotReadGitignore d') =>
      bool_decide (d' = d)
  | ClassifyFile q _ | Copy2 q | PartialCopy q | Log _ (FailedToCopy q) =>
      bool_decide (removelast q = d)
  | _ => false
  end.

Definition elsewhere (d : path) (e : event) : bool :=
  negb (uses_gitignore_of d e).

(** [f] and [g] add the same events, as far as [K] shows them. *)
Definition agree (K : event -> bool) (f g : state -> state) : Prop :=
  forall st st',
    List.filter K (st_trace st) = List.filter K (st_trace st') ->
    List.filter K (st_trace (f st)) = List.filter K (st_trace (g st')).

(** [f] adds no event that [K] shows. *)
Definition hidden (K : event -> bool) (f : state -> state) : Prop :=
  forall st, List.filter K (st_trace (f st)) = List.filter K (st_trace st).

(** A source root with two directories: [a], whose [.gitignore] lists
    [*.c], holding a file and a child directory, and its sibling [b]. *)
Definition two_directories : entry :=
  Directory "" NoGitignore true
    [ Directory "a" (Gitignore ["*.c"]) true
        [ File "x.c" 1 CopyOk;
          Directory "sub" NoGitignore true [File "y.c" 2 CopyOk] ];
      Directory "b" NoGitignore true [File "z.c" 4 CopyOk] ].

(** [W] holds of the node and of every entry below it. *)
Fixpoint every_entry (W : entry -> Prop) (node : entry) : Prop :=
  W node /\
  match node with
  | Directory _ _ _ entries =>
      (fix all (items : list entry) : Prop :=
         match items with
         | [] => True
         | item :: rest => every_entry W item /\ all rest
         end) entries
  | _ => True
  end.

(** [st_size] is never negative. *)
Definition size_is_natural (item : entry) : Prop :=
  match item with
  | File _ size _ | Symlink _ (ToFile size _) => 0 <= size
  | _ => True
  end.

(** The number of events of a kind in a trace. *)
Definition count (kind : event -> bool) (trace : list event) : Z :=
  Z.of_nat (length (List.filter kind trace)).

(** A [shutil.copy2] that returned. *)
Definition written (e : event) : bool :=
  match e with Copy2 _ => true | _ => false end.

Definition skip_decision (e : event) : bool :=
  match e with
  | ClassifyFile _ true | ClassifyDirectory _ true => true
  | _ => false
  end.

(** The log records of the four places that add to [errors]. *)
Definition error_record (e : event) : bool :=
  match e with
  | Log _ (FailedToCopy _) | Log _ (PermissionDenied _)
  | Log _ (ErrorProcessing _) | Log _ (ErrorScanningDirectory _) => true
  | _ => false
  end.

(** The counters agree with what the trace shows. *)
Definition counters_match_trace (st : state) : Prop :=
  copied (st_stats st) = count written (st_trace st) /\
  skipped (st_stats st) = count skip_decision (st_trace st) /\
  errors (st_stats st) = count error_record (st_trace st).

(** No counter of [st] is below the one of [st0]. *)
Definition counters_not_below (st0 st : state) : Prop :=
  copied (st_stats st0) <= copied (st_stats st) /\
  skipped (st_stats st0) <= skipped (st_stats st) /\
  errors (st_stats st0) <= errors (st_stats st) /\
  size_copied (st_stats st0) <= size_copied (st_stats st).

(** Every copy, and every copy that failed, comes after the decision to
    keep that file. *)
Definition copies_follow_decisions (st : state) : Prop :=
  forall p, (Copy2 p ∈ st_trace st \/
             Log ERROR (FailedToCopy p) ∈ st_trace st) ->
            ClassifyFile p false ∈ st_trace st.

Definition add_stats (a b : stats) : stats :=
  {| copied := copied a + copied b;
     skipped := skipped a + skipped b;
     errors := errors a + errors b;
     size_copied := size_copied a + size_copied b |}.

(** The state [st] followed by what [later] counted and did. *)
Definition combine (st later : state) : state :=
  {| st_stats := add_stats (st_stats st) (st_stats later);
     st_trace := st_trace st ++ st_trace later |}.

(** [entry_at root p item]: [item] lies at the relative path [p] below
    [root]. *)
Inductive entry_at : entry -> path -> entry -> Prop :=
| at_root (node : entry) : entry_at node [] node
| at_child (nm : string) (gitignore : gitignore_file) (listable : bool)
    (entries : list entry) (item : entry) (p : path) (found : entry) :
    In item entries ->
    entry_at item p found ->
    entry_at (Directory nm gitignore listable entries)
      (entry_name item :: p) found.

(** A regular file, or a symbolic link to one, for which [shutil.copy2]
    gets as far as creating the destination file. *)
Definition copyable (item : entry) : Prop :=
  exists nm size copy, copy <> CopyFails /\
    (item = File nm size copy \/ item = Symlink nm (ToFile size copy)).

(** [f] does to any state what it does to a fresh one, after it. *)
Definition framed (f : state -> state) : Prop :=
  forall st later, f (combine st later) = combine st (f later).

(** Nothing fails at this entry: its copy succeeds, the directory can be
    searched and listed, its type can be queried. *)
Definition failure_free (item : entry) : Prop :=
  match item with
  | File _ _ copy | Symlink _ (ToFile _ copy) => copy = CopyOk
  | Directory _ gitignore listable _ =>
      listable = true /\ reachable gitignore = true
  | Unreadable _ _ => False
  | _ => True
  end.

(** The longest chain of directories below a directory. *)
Fixpoint depth_below (node : entry) : Z :=
  match node with
  | Directory _ _ _ entries =>
      (fix deepest (items : list entry) : Z :=
         match items with
         | [] => 0
         | item :: rest =>
             Z.max match item with
                   | Directory _ _ _ _ => 1 + depth_below item
                   | _ => 0
                   end
                   (deepest rest)
         end) entries
  | _ => 0
  end.

Definition is_directory (node : entry) : bool :=
  match node with Directory _ _ _ _ => true | _ => false end.

(** The event is not the warning of the depth ceiling. *)
Definition no_ceiling_warning (e : event) : Prop :=
  forall lvl d, e <> Log lvl (MaximumRecursionDepth d).

(** The character is none of the three that start a wildcard. *)
Definition plain (c : ascii) : bool :=
  negb (Ascii.eqb c "*" || Ascii.eqb c "?" || Ascii.eqb c "[")%char.

(** A pattern with no wildcard in it. *)
Definition wildcard_free (pattern : string) : bool :=
  forallb plain (list_ascii_of_string pattern).

(** What the event creates in the destination, if anything, is the copy
    of a copyable entry of [root]. *)
Definition copies_from (root : entry) (e : event) : Prop :=
  forall p, e = Copy2 p \/ e = PartialCopy p ->
            exists item, entry_at root p item /\ copyable item.

(** Every directory whose [.gitignore] was looked for or whose entries were
    listed is [top] or has been classified as kept. *)
Definition opened_were_kept (top : path) (st : state) : Prop :=
  forall d, Iterdir d ∈ st_trace st \/ LoadGitignore d ∈ st_trace st ->
            d = top \/ ClassifyDirectory d false ∈ st_trace st.

(** [inserted extra st' st]: the state [st'] is [st] with what [extra]
    counted added to the counters and what [extra] did put in at one place
    of the trace, everything before and after being the same. *)
Definition inserted (extra st' st : state) : Prop :=
  st_stats st' = add_stats (st_stats st) (st_stats extra) /\
  exists before after,
    st_trace st = before ++ after /\
    st_trace st' = before ++ st_trace extra ++ after.

(** [one_more_entry self item src_dir level bigger smaller where_ pats]:
    the directory [bigger] is the directory [smaller] with [item] added to
    the entries of one directory that the call of [backup_directory] at
    [src_dir] and [level] reaches and lists; that directory lies at
    [where_] and its pattern set is [pats]. *)
Inductive one_more_entry (self : MigrationPrep) (item : entry) :
    path -> Z -> entry -> entry -> path -> gset string -> Prop :=
| added_here (src_dir : path) (level : Z) (nm : string)
    (gitignore : gitignore_file) (pats : gset string)
    (before after : list entry) :
    level <= 10 ->
    fst (load_gitignore_patterns src_dir gitignore initial) = Some pats ->
    one_more_entry self item src_dir level
      (Directory nm gitignore true (before ++ item :: after))
      (Directory nm gitignore true (before ++ after))
      src_dir pats
| added_below (src_dir : path) (level : Z) (nm : string)
    (gitignore : gitignore_file) (parent_pats : gset string)
    (before after : list entry) (bigger smaller : entry)
    (where_ : path) (pats : gset string) :
    level <= 10 ->
    fst (load_gitignore_patterns src_dir gitignore initial) = Some parent_pats ->
    should_skip_directory self (src_dir ++ [entry_name smaller]) = false ->
    one_more_entry self item (src_dir ++ [entry_name smaller]) (level + 1)
      bigger smaller where_ pats ->
    one_more_entry self item src_dir level
      (Directory nm gitignore true (before ++ bigger :: after))
      (Directory nm gitignore true (before ++ smaller :: after))
      where_ pats.

(** The entry fails when the loop body reaches it in the directory
    [where_], under the pattern set [pats]: its type query raises, or it is
    a file, or a link to a file, that is kept and whose copy raises. *)
Definition fails (self : MigrationPrep) (where_ : path) (pats : gset string)
    (item : entry) : Prop :=
  (exists nm err, item = Unreadable nm err) \/
  (exists nm size copy,
     (item = File nm size copy \/ item = Symlink nm (ToFile size copy)) /\
     copy <> CopyOk /\
     should_skip_file self (where_ ++ [nm]) pats = false).

(** A source root with a directory [sub] between two files, and the same with
    an entry that cannot be looked at in the middle of [sub]. *)
Definition plain_tree : entry :=
  Directory "" NoGitignore true
    [ File "a.c" 1 CopyOk;
      Directory "sub" NoGitignore true
        [File "x.c" 2 CopyOk; File "y.c" 4 CopyOk];
      File "b.c" 8 CopyOk ].

Definition locked_tree : entry :=
  Directory "" NoGitignore true
    [ File "a.c" 1 CopyOk;
      Directory "sub" NoGitignore true
        [ File "x.c" 2 CopyOk; Unreadable "locked" PermissionError;
          File "y.c" 4 CopyOk ];
      File "b.c" 8 CopyOk ].

(** * Properties *)

(** ** The loops of the classifier find a pattern iff there is one *)

Lemma matches_any_true filename (patterns : list string) :
  matches_any filename patterns = true <->
  exists pattern, pattern ∈ patterns /\ fnmatch filename pattern = true.
Proof.
  induction patterns as [|p ps IH]; simpl.
  - split; [discriminate | intros (x & Hx & _); inversion Hx].
  - destruct (fnmatch filename p) eqn:Hp.
    + split; [intros _; exists p; split; [left | exact Hp] | reflexivity].
    + rewrite IH. split.
      * intros (x & Hx & Hm). exists x. split; [right; exact Hx | exact Hm].
      * intros (x & Hx & Hm). apply elem_of_cons in Hx as [-> | Hx].
        -- congruence.
        -- exists x. split; assumption.
Qed.

Lemma gitignore_hit_true relative filename (patterns : list string) :
  gitignore_hit relative filename patterns = true <->
  exists pattern, pattern ∈ patterns /\
    (fnmatch relative pattern = true \/ fnmatch filename pattern = true).
Proof.
  induction patterns as [|p ps IH]; simpl.
  - split; [discriminate | intros (x & Hx & _); inversion Hx].
  - destruct (fnmatch relative p || fnmatch filename p) eqn:Hp.
    + split; [intros _ | reflexivity].
      exists p. split; [left | apply orb_true_iff, Hp].
    + rewrite IH. apply orb_false_iff in Hp as [Hr Hf]. split.
      * intros (x & Hx & Hm). exists x. split; [right; exact Hx | exact Hm].
      * intros (x & Hx & Hm). apply elem_of_cons in Hx as [-> | Hx].
        -- destruct Hm; congruence.
        -- exists x. split; assumption.
Qed.

Lemma keep_hit_true relative dirname (keeps : list string) :
  keep_hit relative dirname keeps = true <->
  exists keep_pattern, keep_pattern ∈ keeps /\
    (startswith relative keep_pattern = true \/ dirname = keep_pattern).
Proof.
  induction keeps as [|k ks IH]; simpl.
  - split; [discriminate | intros (x & Hx & _); inversion Hx].
  - destruct (startswith relative k || String.eqb dirname k) eqn:Hk.
    + split; [intros _ | reflexivity].
      exists k. split; [left |].
      apply orb_true_iff in Hk as [Hk | Hk]; [left; exact Hk | right].
      apply String.eqb_eq, Hk.
    + rewrite IH. apply orb_false_iff in Hk as [Hr Hf]. split.
      * intros (x & Hx & Hm). exists x. split; [right; exact Hx | exact Hm].
      * intros (x & Hx & Hm). apply elem_of_cons in Hx as [-> | Hx].
        -- destruct Hm as [Hm | Hm]; [congruence |].
           apply String.eqb_eq in Hm. congruence.
        -- exists x. split; assumption.
Qed.

(** [str.startswith] is being an initial segment. *)
Lemma startswith_spec (s pre : string) :
  startswith s pre = true <-> exists rest, s = String.append pre rest.
Proof.
  unfold startswith. revert s. induction pre as [|c pre IH]; intros s.
  - destruct s; simpl; (split; [intros _; eexists; reflexivity | reflexivity]).
  - destruct s as [|d s]; simpl.
    + split; [discriminate | intros (r & Hr); inversion Hr].
    + destruct (Ascii.ascii_dec c d) as [-> | Hne].
      * rewrite IH. split; intros (r & Hr); exists r.
        -- rewrite Hr. reflexivity.
        -- inversion Hr. reflexivity.
      * split; [discriminate | intros (r & Hr); inversion Hr; congruence].
Qed.

Lemma name_snoc (src_dir : path) (nm : string) : name (src_dir ++ [nm]) = nm.
Proof. unfold name. apply List.last_last. Qed.

Lemma keep_dotfiles_hit self dir_path :
  keep_hit (relative_path dir_path) (name dir_path)
    (elements (keep_dotfiles self)) = true <->
  keep_dotfile_applies self dir_path.
Proof.
  rewrite keep_hit_true. unfold keep_dotfile_applies.
  split; intros (k & Hk & H); exists k; (split; [set_solver |]);
    (destruct H as [H | H]; [left; apply startswith_spec, H | right; exact H]).
Qed.

Lemma gitignore_set_hit gitignore_patterns file_path :
  gitignore_hit (relative_path file_path) (name file_path)
    (elements gitignore_patterns) = true <->
  gitignore_applies gitignore_patterns file_path.
Proof.
  rewrite gitignore_hit_true. unfold gitignore_applies.
  split; intros (k & Hk & H); exists k; (split; [set_solver | exact H]).
Qed.

(** C1. [should_skip_file] applies its rules in a fixed order: a bare
    filename matching a keep pattern is kept whatever else matches;
    otherwise a gitignore pattern matching the bare filename or the
    source-relative path skips it; otherwise a skip pattern matching the
    bare filename skips it; otherwise it is kept. *)
Theorem should_skip_file_rule_order (self : MigrationPrep) (file_path : path)
    (gitignore_patterns : gset string) :
  (keep_pattern_applies self file_path ->
     should_skip_file self file_path gitignore_patterns = false) /\
  (~ keep_pattern_applies self file_path ->
   gitignore_applies gitignore_patterns file_path ->
     should_skip_file self file_path gitignore_patterns = true) /\
  (~ keep_pattern_applies self file_path ->
   ~ gitignore_applies gitignore_patterns file_path ->
   skip_pattern_applies self file_path ->
     should_skip_file self file_path gitignore_patterns = true) /\
  (~ keep_pattern_applies self file_path ->
   ~ gitignore_applies gitignore_patterns file_path ->
   ~ skip_pattern_applies self file_path ->
     should_skip_file self file_path gitignore_patterns = false).
Proof.
  unfold should_skip_file.
  pose proof (matches_any_true (name file_path) (keep_patterns self)) as Hk.
  pose proof (gitignore_set_hit gitignore_patterns file_path) as Hg.
  pose proof (matches_any_true (name file_path) (skip_patterns self)) as Hs.
  fold (keep_pattern_applies self file_path) in Hk.
  fold (skip_pattern_applies self file_path) in Hs.
  destruct (matches_any (name file_path) (keep_patterns self));
    destruct (gitignore_hit _ _ _);
    destruct (matches_any (name file_path) (skip_patterns self));
    repeat split; intros; try reflexivity;
    try (exfalso; intuition congruence).
Qed.

(** A file called [README.log] with [*.log] in the active gitignore set
    matches a keep pattern, a skip pattern and a gitignore pattern, and is
    kept. *)
Lemma should_skip_file_rule_order_witness :
  keep_pattern_applies init ["docs"; "README.log"] /\
  gitignore_applies {[ "*.log" ]} ["docs"; "README.log"] /\
  skip_pattern_applies init ["docs"; "README.log"] /\
  should_skip_file init ["docs"; "README.log"] {[ "*.log" ]} = false.
Proof.
  assert (Hk : keep_pattern_applies init ["docs"; "README.log"]).
  { exists "README*". split; [| vm_compute; reflexivity].
    apply list_elem_of_In. vm_compute. tauto. }
  split; [exact Hk |]. split; [| split].
  - exists "*.log". split; [apply elem_of_singleton; reflexivity |].
    right. vm_compute. reflexivity.
  - exists "*.log". split; [| vm_compute; reflexivity].
    apply list_elem_of_In. vm_compute. tauto.
  - exact (proj1 (should_skip_file_rule_order init ["docs"; "README.log"]
                    {[ "*.log" ]}) Hk).
Defined.

(** The classifier on a few names, under the default rule set. *)
Example should_skip_file_samples :
  should_skip_file init [".env.production"] ∅ = false /\
  should_skip_file init ["app.log"] ∅ = true /\
  should_skip_file init ["config.json"] ∅ = false /\
  should_skip_file init ["src"; "main.c"] ∅ = false /\
  should_skip_file init ["src"; "main.c"] {[ "src/*" ]} = true /\
  should_skip_file init ["src"; "main.c"] {[ "main.?" ]} = true /\
  should_skip_file init ["notes.txt"] {[ "notes.txt" ]} = false.
Proof. vm_compute. repeat split. Qed.

(** The cases of [should_skip_directory], in the order it tests them. *)
Lemma should_skip_directory_cases (self : MigrationPrep) (dir_path : path) :
  (keep_dotfile_applies self dir_path ->
     should_skip_directory self dir_path = false) /\
  (~ keep_dotfile_applies self dir_path ->
   name dir_path ∈ skip_dirs self ->
     should_skip_directory self dir_path = true) /\
  (~ keep_dotfile_applies self dir_path ->
   name dir_path ∉ skip_dirs self ->
     should_skip_directory self dir_path =
     matches_any (name dir_path) (skip_patterns self)).
Proof.
  unfold should_skip_directory.
  pose proof (keep_dotfiles_hit self dir_path) as Hk.
  destruct (keep_hit _ _ _).
  - repeat split; intros; try reflexivity; exfalso; intuition congruence.
  - case_bool_decide as Hd;
      destruct (matches_any (name dir_path) (skip_patterns self));
      repeat split; intros; try reflexivity;
      try (exfalso; intuition congruence).
Qed.

(** C2. [should_skip_directory] keeps a directory whose bare name is a
    keep-dotfile entry or whose source-relative path starts with one, whatever
    the skip rules say; only when no keep-dotfile entry applies does a name
    in [skip_dirs] skip it, then a skip pattern matching the name, and
    otherwise the directory is kept. *)
Theorem should_skip_directory_rule_order (self : MigrationPrep) (dir_path : path) :
  (keep_dotfile_applies self dir_path ->
     should_skip_directory self dir_path = false) /\
  (~ keep_dotfile_applies self dir_path ->
   name dir_path ∈ skip_dirs self ->
     should_skip_directory self dir_path = true) /\
  (~ keep_dotfile_applies self dir_path ->
   name dir_path ∉ skip_dirs self ->
   skip_pattern_applies self dir_path ->
     should_skip_directory self dir_path = true) /\
  (~ keep_dotfile_applies self dir_path ->
   name dir_path ∉ skip_dirs self ->
   ~ skip_pattern_applies self dir_path ->
     should_skip_directory self dir_path = false).
Proof.
  destruct (should_skip_directory_cases self dir_path) as (H1 & H2 & H3).
  pose proof (matches_any_true (name dir_path) (skip_patterns self)) as Hs.
  fold (skip_pattern_applies self dir_path) in Hs.
  repeat split; try assumption; intros Hk Hd Hp; rewrite (H3 Hk Hd).
  - apply Hs, Hp.
  - destruct (matches_any _ _); [exfalso; apply Hp, Hs |]; reflexivity.
Qed.

Lemma in_skip_dirs_init (dirname : string) :
  In dirname default_skip_dirs -> dirname ∈ skip_dirs init.
Proof.
  intros H. unfold init, skip_dirs.
  apply elem_of_list_to_set, list_elem_of_In, H.
Qed.

Lemma in_keep_dotfiles_init (dirname : string) :
  In dirname default_keep_dotfiles -> dirname ∈ keep_dotfiles init.
Proof.
  intros H. unfold init, keep_dotfiles.
  apply elem_of_list_to_set, list_elem_of_In, H.
Qed.

(** [.config/node_modules]: the name is in [skip_dirs], the relative path
    starts with the keep-dotfile [.config], and the directory is kept. *)
Lemma should_skip_directory_rule_order_witness :
  keep_dotfile_applies init [".config"; "node_modules"] /\
  name [".config"; "node_modules"] ∈ skip_dirs init /\
  should_skip_directory init [".config"; "node_modules"] = false.
Proof.
  assert (Hk : keep_dotfile_applies init [".config"; "node_modules"]).
  { exists ".config". split.
    - apply in_keep_dotfiles_init. vm_compute. tauto.
    - left. exists "/node_modules". reflexivity. }
  split; [exact Hk |]. split.
  - apply in_skip_dirs_init. vm_compute. tauto.
  - exact (proj1 (should_skip_directory_rule_order init
                    [".config"; "node_modules"]) Hk).
Defined.

Lemma not_keep_dotfile (self : MigrationPrep) (dir_path : path) :
  keep_hit (relative_path dir_path) (name dir_path)
    (elements (keep_dotfiles self)) = false ->
  ~ keep_dotfile_applies self dir_path.
Proof. intros H Hk. apply keep_dotfiles_hit in Hk. congruence. Qed.




(** ** The loop of [backup_directory] *)

Lemma backup_directory_unfold (self : MigrationPrep) (src_dir : path)
    (node : entry) (level : Z) (st : state) :
  backup_directory self src_dir node level st =
  if 10 <? level then log WARNING (MaximumRecursionDepth src_dir) st
  else
    match node with
    | Directory _ gitignore listable entries =>
        let loaded := load_gitignore_patterns src_dir gitignore st in
        match fst loaded with
        | Some gitignore_patterns =>
            let st := emit (Iterdir src_dir) (snd loaded) in
            if listable
            then backup_items self src_dir gitignore_patterns level entries st
            else count_error (log ERROR (ErrorScanningDirectory src_dir) st)
        | None =>
            count_error (log ERROR (ErrorScanningDirectory src_dir) (snd loaded))
        end
    | _ =>
        count_error
          (log ERROR (ErrorScanningDirectory src_dir)
             (emit (Iterdir src_dir) (emit (LoadGitignore src_dir) st)))
    end.
Proof.
  destruct node; simpl; destruct (10 <? level); try reflexivity.
  destruct (load_gitignore_patterns src_dir gitignore st) as [[pats|] st1];
    [| reflexivity].
  simpl. destruct listable; [| reflexivity].
  unfold backup_items.
  generalize (emit (Iterdir src_dir) st1) as st2.
  induction entries as [|item rest IH]; intros st2; simpl; [reflexivity |].
  rewrite IH. reflexivity.
Qed.

Lemma backup_items_app self src_dir gitignore_patterns level
    (before after : list entry) (st : state) :
  backup_items self src_dir gitignore_patterns level (before ++ after) st =
  backup_items self src_dir gitignore_patterns level after
    (backup_items self src_dir gitignore_patterns level before st).
Proof. unfold backup_items. apply fold_left_app. Qed.

Lemma backup_items_cons self src_dir gitignore_patterns level
    (item : entry) (rest : list entry) (st : state) :
  backup_items self src_dir gitignore_patterns level (item :: rest) st =
  backup_items self src_dir gitignore_patterns level rest
    (backup_item self src_dir gitignore_patterns level item st).
Proof. reflexivity. Qed.

(** ** Skipped directories *)

(** What the loop body does with a directory that [should_skip_directory]
    rejects; the right-hand side has none of the directory's fields. *)
Lemma backup_item_skipped_directory self src_dir gitignore_patterns level
    nm gitignore listable entries st :
  should_skip_directory self (src_dir ++ [nm]) = true ->
  backup_item self src_dir gitignore_patterns level
    (Directory nm gitignore listable entries) st =
  count_skipped
    (log INFO (SkippingDirectory (src_dir ++ [nm]))
       (emit (ClassifyDirectory (src_dir ++ [nm]) true) st)).
Proof. intros H. unfold backup_item. rewrite H. reflexivity. Qed.

(** C3, as the code has it.  A directory whose name is in [skip_dirs] is
    skipped when no keep-dotfile entry applies to it; and a directory that is
    skipped is pruned: the loop body counts it once as skipped, logs it, and
    does nothing else, so that neither its [.gitignore] nor its listing nor
    anything below it is looked at, and the whole run is the same whatever
    the directory contains. *)
Theorem skipped_directory_is_pruned :
  (forall (self : MigrationPrep) (dir_path : path),
     ~ keep_dotfile_applies self dir_path ->
     name dir_path ∈ skip_dirs self ->
     should_skip_directory self dir_path = true) /\
  (forall (self : MigrationPrep) (src_dir : path)
          (gitignore_patterns : gset string) (level : Z) (nm : string)
          (gitignore : gitignore_file) (listable : bool)
          (entries : list entry) (st : state),
     should_skip_directory self (src_dir ++ [nm]) = true ->
     let st' := backup_item self src_dir gitignore_patterns level
                  (Directory nm gitignore listable entries) st in
     st_stats st' =
       {| copied := copied (st_stats st);
          skipped := skipped (st_stats st) + 1;
          errors := errors (st_stats st);
          size_copied := size_copied (st_stats st) |} /\
     st_trace st' =
       st_trace st ++ [ ClassifyDirectory (src_dir ++ [nm]) true;
                        Log INFO (SkippingDirectory (src_dir ++ [nm])) ] /\
     (forall gitignore' listable' entries',
        backup_item self src_dir gitignore_patterns level
          (Directory nm gitignore' listable' entries') st = st') /\
     (forall parent parent_gitignore before after gitignore' listable' entries' st0,
        backup_directory self src_dir
          (Directory parent parent_gitignore true
             (before ++ Directory nm gitignore' listable' entries' :: after))
          level st0 =
        backup_directory self src_dir
          (Directory parent parent_gitignore true
             (before ++ Directory nm gitignore listable entries :: after))
          level st0)).
Proof.
  split.
  - intros self dir_path Hk Hin.
    apply (should_skip_directory_cases self dir_path); assumption.
  - intros self src_dir pats level nm g l es st Hskip st'. subst st'.
    rewrite (backup_item_skipped_directory _ _ _ _ _ _ _ _ _ Hskip).
    split; [reflexivity |]. split; [simpl; rewrite <- app_assoc; reflexivity |].
    split.
    + intros g' l' es'. apply backup_item_skipped_directory, Hskip.
    + intros parent pg before after g' l' es' st0.
      rewrite !backup_directory_unfold. destruct (10 <? level); [reflexivity |].
      cbv zeta.
      destruct (fst (load_gitignore_patterns src_dir pg st0)); [| reflexivity].
      rewrite !backup_items_app, !backup_items_cons.
      rewrite !(backup_item_skipped_directory _ _ _ _ _ _ _ _ _ Hskip).
      reflexivity.
Qed.

(** A [build] directory holding an object file, in the source root. *)
Lemma skipped_directory_is_pruned_witness :
  should_skip_directory init ["build"] = true /\
  backup_item init [] ∅ 0
    (Directory "build" NoGitignore true [File "output.o" 100 CopyOk]) initial =
  {| st_stats := {| copied := 0; skipped := 1; errors := 0; size_copied := 0 |};
     st_trace := [ ClassifyDirectory ["build"] true;
                   Log INFO (SkippingDirectory ["build"]) ] |}.
Proof.
  assert (Hs : should_skip_directory init ([] ++ ["build"]) = true).
  { apply (proj1 skipped_directory_is_pruned init ["build"]).
    - apply not_keep_dotfile. vm_compute. reflexivity.
    - apply in_skip_dirs_init. vm_compute. tauto. }
  split; [exact Hs |].
  destruct (proj2 skipped_directory_is_pruned init [] ∅ 0 "build" NoGitignore
              true [File "output.o" 100 CopyOk] initial Hs) as (H1 & H2 & _).
  destruct (backup_item init [] ∅ 0 _ initial) as [s t].
  simpl in H1, H2. rewrite H1, H2. reflexivity.
Defined.

(** [.mix] is in [skip_dirs] and in [keep_dotfiles]: the directory is kept,
    opened, and the file in it copied. *)
Lemma skip_dirs_name_kept_counterexample :
  name [".mix"] ∈ skip_dirs init /\
  should_skip_directory init [".mix"] = false /\
  backup_directory init []
    (Directory "" NoGitignore true
       [Directory ".mix" NoGitignore true [File "cache.c" 7 CopyOk]])
    0 initial =
  {| st_stats := {| copied := 1; skipped := 0; errors := 0; size_copied := 7 |};
     st_trace := [ LoadGitignore []; Iterdir [];
                   ClassifyDirectory [".mix"] false;
                   LoadGitignore [".mix"]; Iterdir [".mix"];
                   ClassifyFile [".mix"; "cache.c"] false;
                   Copy2 [".mix"; "cache.c"] ] |}.
Proof.
  split; [apply in_skip_dirs_init; vm_compute; tauto |].
  split; vm_compute; reflexivity.
Qed.

(** ** Symbolic links *)

(** C10. A symbolic link to a directory, and a symbolic link whose target
    does not exist, leave the state of the run as it was: no counter moves,
    nothing is copied, logged or descended into. *)
Theorem symlink_to_directory_or_dangling_is_invisible
    (self : MigrationPrep) (src_dir : path) (gitignore_patterns : gset string)
    (level : Z) (nm : string) (target : link_target) (st : state) :
  target = ToDirectory \/ target = Dangling ->
  backup_item self src_dir gitignore_patterns level (Symlink nm target) st = st.
Proof. intros [-> | ->]; reflexivity. Qed.

Lemma symlink_to_directory_or_dangling_is_invisible_witness :
  backup_item init ["home"] {[ "*.bak" ]} 1 (Symlink "current" ToDirectory) initial
  = initial /\
  backup_item init ["home"] {[ "*.bak" ]} 1 (Symlink "gone" Dangling) initial
  = initial.
Proof.
  split.
  - apply symlink_to_directory_or_dangling_is_invisible. left. reflexivity.
  - apply symlink_to_directory_or_dangling_is_invisible. right. reflexivity.
Defined.

(** ** Failures *)

(** Between two files that are copied, a file whose copy fails and an entry
    that cannot be looked at: two errors, and both other files copied. *)
Example failures_between_two_files :
  backup_directory init []
    (Directory "" NoGitignore true
       [ File "a.c" 1 CopyOk; File "b.c" 2 CopyFails;
         Unreadable "locked" PermissionError; File "c.c" 4 CopyOk ])
    0 initial =
  {| st_stats := {| copied := 2; skipped := 0; errors := 2; size_copied := 5 |};
     st_trace := [ LoadGitignore []; Iterdir [];
                   ClassifyFile ["a.c"] false; Copy2 ["a.c"];
                   ClassifyFile ["b.c"] false; Log ERROR (FailedToCopy ["b.c"]);
                   Log WARNING (PermissionDenied ["locked"]);
                   ClassifyFile ["c.c"] false; Copy2 ["c.c"] ] |}.
Proof. vm_compute. reflexivity. Qed.

(** C6, as the code has it.  A [.gitignore] whose [open] or read fails is
    caught inside [load_gitignore_patterns] and logged as a warning; no
    counter moves, the patterns read before the failure (none when the file
    cannot be opened) are returned, and [backup_directory] goes on to list
    the directory and to process its entries with them.  Only when the test
    [exists()] itself raises does the failure leave
    [load_gitignore_patterns]: [backup_directory] then logs an error, counts
    it once and returns without listing the directory, so that the run of
    the directory above is the same whatever that directory holds, and goes
    on with the next entry. *)
Theorem unreadable_gitignore_is_tolerated
    (self : MigrationPrep) (src_dir : path) (nm : string)
    (lines : list string) (listable : bool) (entries : list entry)
    (level : Z) (st : state) :
  level <= 10 ->
  let loaded := load_gitignore_patterns src_dir (UnreadableGitignore lines) st in
  (fst loaded = Some (add_lines lines ∅) /\
   st_stats (snd loaded) = st_stats st /\
   st_trace (snd loaded) =
     st_trace st ++ [ LoadGitignore src_dir;
                      Log WARNING (CouldNotReadGitignore src_dir) ] /\
   backup_directory self src_dir
     (Directory nm (UnreadableGitignore lines) true entries) level st =
   backup_items self src_dir (add_lines lines ∅) level entries
     (emit (Iterdir src_dir) (snd loaded))) /\
  (fst (load_gitignore_patterns src_dir UnreachableGitignore st) = None /\
   let st' := backup_directory self src_dir
                (Directory nm UnreachableGitignore listable entries) level st in
   st_stats st' =
     {| copied := copied (st_stats st);
        skipped := skipped (st_stats st);
        errors := errors (st_stats st) + 1;
        size_copied := size_copied (st_stats st) |} /\
   st_trace st' =
     st_trace st ++ [ LoadGitignore src_dir;
                      Log ERROR (ErrorScanningDirectory src_dir) ] /\
   forall parent parent_gitignore parent_path before after listable' entries'
          st0,
     backup_directory self parent_path
       (Directory parent parent_gitignore true
          (before ++ Directory nm UnreachableGitignore listable' entries'
                  :: after))
       (level - 1) st0 =
     backup_directory self parent_path
       (Directory parent parent_gitignore true
          (before ++ Directory nm UnreachableGitignore listable entries
                  :: after))
       (level - 1) st0).
Proof.
  intros Hlevel loaded. subst loaded.
  assert (Hl : (10 <? level) = false) by (apply Z.ltb_ge; exact Hlevel).
  split.
  - split; [reflexivity |]. split; [reflexivity |].
    split; [simpl; rewrite <- app_assoc; reflexivity |].
    rewrite backup_directory_unfold, Hl. reflexivity.
  - split; [reflexivity |].
    rewrite backup_directory_unfold, Hl.
    split; [reflexivity |].
    split; [simpl; rewrite <- app_assoc; reflexivity |].
    intros parent pg parent_path before after l' es' st0.
    rewrite !backup_directory_unfold.
    destruct (10 <? level - 1); [reflexivity |]. cbv zeta.
    destruct (fst (load_gitignore_patterns parent_path pg st0));
      [| reflexivity].
    rewrite !backup_items_app, !backup_items_cons.
    apply (f_equal (backup_items self parent_path g (level - 1) after)).
    unfold backup_item.
    destruct (should_skip_directory self (parent_path ++ [nm])); simpl negb;
      cbv iota zeta; [reflexivity |].
    rewrite !backup_directory_unfold.
    destruct (10 <? level - 1 + 1); reflexivity.
Qed.

(** A directory whose [.gitignore] stops being readable after its first
    line, and a directory that cannot be searched. *)
Lemma unreadable_gitignore_is_tolerated_witness :
  backup_directory init []
    (Directory "" (UnreadableGitignore ["*.bak"]) true
       [File ".gitignore" 12 CopyOk; File "old.bak" 9 CopyOk])
    0 initial =
  backup_items init [] (add_lines ["*.bak"] ∅) 0
    [File ".gitignore" 12 CopyOk; File "old.bak" 9 CopyOk]
    (emit (Iterdir [])
       (snd (load_gitignore_patterns [] (UnreadableGitignore ["*.bak"]) initial)))
  /\
  st_stats (backup_directory init ["vault"]
              (Directory "vault" UnreachableGitignore true
                 [File "notes.c" 5 CopyOk]) 1 initial) =
  {| copied := 0; skipped := 0; errors := 0 + 1; size_copied := 0 |}.
Proof.
  split.
  - apply (unreadable_gitignore_is_tolerated init [] "" ["*.bak"] true
             [File ".gitignore" 12 CopyOk; File "old.bak" 9 CopyOk] 0 initial).
    lia.
  - apply (proj2 (unreadable_gitignore_is_tolerated init ["vault"] "vault" []
                    true [File "notes.c" 5 CopyOk] 1 initial ltac:(lia))).
Defined.

(** Two source roots whose [.gitignore] cannot be read.  In the first it is
    a file that nobody may open: the warning is logged, every entry is still
    processed, [notes.c] is copied, and the one error counted is the failed
    copy of the [.gitignore] itself.  In the second it holds bytes that are
    not UTF-8: the read fails, both files are copied, and no error is
    counted at all. *)
Lemma unreadable_gitignore_counterexample :
  backup_directory init []
    (Directory "" (UnreadableGitignore []) true
       [File ".gitignore" 9 CopyFails; File "notes.c" 5 CopyOk])
    0 initial =
  {| st_stats := {| copied := 1; skipped := 0; errors := 1; size_copied := 5 |};
     st_trace := [ LoadGitignore [];
                   Log WARNING (CouldNotReadGitignore []);
                   Iterdir [];
                   ClassifyFile [".gitignore"] false;
                   Log ERROR (FailedToCopy [".gitignore"]);
                   ClassifyFile ["notes.c"] false;
                   Copy2 ["notes.c"] ] |} /\
  backup_directory init []
    (Directory "" (UnreadableGitignore []) true
       [File ".gitignore" 9 CopyOk; File "notes.c" 5 CopyOk])
    0 initial =
  {| st_stats := {| copied := 2; skipped := 0; errors := 0; size_copied := 14 |};
     st_trace := [ LoadGitignore [];
                   Log WARNING (CouldNotReadGitignore []);
                   Iterdir [];
                   ClassifyFile [".gitignore"] false;
                   Copy2 [".gitignore"];
                   ClassifyFile ["notes.c"] false;
                   Copy2 ["notes.c"] ] |}.
Proof. split; vm_compute; reflexivity. Qed.

(** ** Dry run *)

(** C7, on the code.  With [--dry-run], [main] writes its two fixed log
    records and returns 0: the source is never looked at, so no entry is
    reported, and nothing is copied. *)
Theorem dry_run_reports_nothing (verbose : bool) (source : option entry)
    (mkdir_ok info_ok : bool) :
  main true verbose source mkdir_ok info_ok =
  (0, {| st_stats := no_stats;
         st_trace := [Log INFO DryRunMode; Log INFO DryRunCompleted] |}).
Proof. reflexivity. Qed.

(** ** The depth ceiling *)

Lemma Forall_snoc (Q : event -> Prop) (trace : list event) (e : event) :
  Forall Q trace -> Q e -> Forall Q (trace ++ [e]).
Proof.
  intros Ht He. apply Forall_app. split; [exact Ht |].
  constructor; [exact He | constructor].
Qed.

(** Peels the events a step has appended off the trace. *)
Ltac added_events :=
  simpl in *;
  repeat first [assumption | apply Forall_snoc; [| try assumption]].

Lemma preserves_backup_file (Q : event -> Prop) self item pats size copy :
  (forall skip, Q (ClassifyFile item skip)) ->
  Q (Copy2 item) -> Q (PartialCopy item) ->
  Q (Log ERROR (FailedToCopy item)) ->
  preserves Q (backup_file self item pats size copy).
Proof.
  intros Hf Hc Hp Hl st Hst. unfold backup_file.
  pose proof (Hf true). pose proof (Hf false).
  destruct (should_skip_file self item pats); [added_events |].
  destruct copy; added_events.
Qed.

Lemma preserves_backup_leaf (Q : event -> Prop) self src_dir pats item :
  (forall e, visited_directory e = Some src_dir -> Q e) ->
  preserves Q (backup_leaf self src_dir pats item).
Proof.
  intros HQ.
  assert (Hparent : removelast (src_dir ++ [entry_name item]) = src_dir)
    by apply removelast_last.
  destruct item as [nm size copy | nm g l es | nm [size copy| | |] | nm | nm [|]];
    simpl in Hparent; intros st Hst; unfold backup_leaf; try exact Hst.
  - apply preserves_backup_file; [| | | | exact Hst];
      intros; apply HQ; simpl; rewrite Hparent; reflexivity.
  - apply preserves_backup_file; [| | | | exact Hst];
      intros; apply HQ; simpl; rewrite Hparent; reflexivity.
  - added_events. apply HQ. simpl. rewrite Hparent. reflexivity.
  - added_events. apply HQ. simpl. rewrite Hparent. reflexivity.
Qed.

Lemma backup_directory_at_most_ten_deep (self : MigrationPrep) (node : entry) :
  forall (src_dir : path) (level : Z),
    Z.of_nat (length src_dir) = level ->
    preserves at_most_ten_deep (backup_directory self src_dir node level).
Proof.
  induction node as [nm size copy | nm g l es IH | nm target | nm | nm err]
    using entry_ind;
    intros src_dir level Hlen st Hst; rewrite backup_directory_unfold;
    destruct (10 <? level) eqn:Hl;
    try (added_events; intros d Hd; discriminate);
    apply Z.ltb_ge in Hl;
    assert (Hhere : forall e, visited_directory e = Some src_dir ->
                              at_most_ten_deep e)
      by (intros e He d Hd; rewrite He in Hd; inversion Hd; subst; lia);
    try (added_events; apply Hhere; reflexivity).
  cbv zeta.
  assert (Hloaded : Forall at_most_ten_deep
            (st_trace (snd (load_gitignore_patterns src_dir g st))))
    by (destruct g; added_events; apply Hhere; reflexivity).
  destruct (fst (load_gitignore_patterns src_dir g st)) as [pats|];
    [| added_events; apply Hhere; reflexivity].
  destruct l; [| added_events; apply Hhere; reflexivity].
  assert (Hlisted : Forall at_most_ten_deep
            (st_trace (emit (Iterdir src_dir)
                         (snd (load_gitignore_patterns src_dir g st)))))
    by (added_events; apply Hhere; reflexivity).
  generalize dependent (emit (Iterdir src_dir)
                          (snd (load_gitignore_patterns src_dir g st))).
  clear st Hst Hloaded. revert pats.
  induction IH as [|item rest Hitem _ IHrest]; intros pats st Hst;
    [exact Hst |].
  rewrite backup_items_cons. apply IHrest.
  destruct item as [nm' size copy | nm' g' l' es' | nm' target | nm' | nm' err];
    try (apply preserves_backup_leaf; [exact Hhere | exact Hst]).
  unfold backup_item.
  assert (Hparent : removelast (src_dir ++ [nm']) = src_dir)
    by apply removelast_last.
  destruct (should_skip_directory self (src_dir ++ [nm'])); simpl negb; cbv iota.
  - added_events; apply Hhere; simpl; rewrite Hparent; reflexivity.
  - apply Hitem.
    + rewrite length_app. simpl. lia.
    + added_events. apply Hhere; simpl; rewrite Hparent; reflexivity.
Qed.

(** C5. Depth is the number of directories between the source root and a
    directory (the [level] of its call), and a file is at the depth of the
    directory that holds it.  A call above level 10 only logs a warning and
    returns, with every counter as it was; a call at level 10 or less
    loads the patterns, lists the directory and processes its entries (or
    ends in the error handler, when the loading raises); a kept directory met at level
    10 costs one warning and the loop goes on; and in a whole run nothing is
    loaded, listed, classified or copied in a directory deeper than 10. *)
Theorem recursion_depth_ceiling :
  (forall (self : MigrationPrep) (src_dir : path) (node : entry) (level : Z)
          (st : state),
     10 < level ->
     backup_directory self src_dir node level st =
     log WARNING (MaximumRecursionDepth src_dir) st) /\
  (forall (self : MigrationPrep) (src_dir : path) (nm : string)
          (gitignore : gitignore_file) (entries : list entry) (level : Z)
          (st : state),
     level <= 10 ->
     backup_directory self src_dir (Directory nm gitignore true entries) level st =
     match fst (load_gitignore_patterns src_dir gitignore st) with
     | Some gitignore_patterns =>
         backup_items self src_dir gitignore_patterns level entries
           (emit (Iterdir src_dir)
              (snd (load_gitignore_patterns src_dir gitignore st)))
     | None =>
         count_error
           (log ERROR (ErrorScanningDirectory src_dir)
              (snd (load_gitignore_patterns src_dir gitignore st)))
     end) /\
  (forall (self : MigrationPrep) (src_dir : path)
          (gitignore_patterns : gset string) (nm : string)
          (gitignore : gitignore_file) (listable : bool)
          (entries : list entry) (st : state),
     should_skip_directory self (src_dir ++ [nm]) = false ->
     backup_item self src_dir gitignore_patterns 10
       (Directory nm gitignore listable entries) st =
     log WARNING (MaximumRecursionDepth (src_dir ++ [nm]))
       (emit (ClassifyDirectory (src_dir ++ [nm]) false) st)) /\
  (forall (self : MigrationPrep) (root : entry) (e : event) (d : path),
     e ∈ st_trace (backup_directory self [] root 0 initial) ->
     visited_directory e = Some d ->
     (length d <= 10)%nat).
Proof.
  split; [| split; [| split]].
  - intros self src_dir node level st Hl.
    rewrite backup_directory_unfold.
    apply Z.ltb_lt in Hl. rewrite Hl. reflexivity.
  - intros self src_dir nm g es level st Hl.
    rewrite backup_directory_unfold.
    destruct (10 <? level) eqn:E; [apply Z.ltb_lt in E; lia | reflexivity].
  - intros self src_dir pats nm g l es st Hkeep.
    unfold backup_item. rewrite Hkeep. simpl negb. cbv iota zeta.
    rewrite backup_directory_unfold. reflexivity.
  - intros self root e d He Hd.
    pose proof (backup_directory_at_most_ten_deep self root [] 0 eq_refl
                  initial (List.Forall_nil _)) as Hall.
    rewrite Forall_forall in Hall. exact (Hall e He d Hd).
Qed.

(** On [deep_tree]: the call for the eleventh directory only warns, the
    call for the tenth lists it, the eleventh directory met there costs one
    warning, and the file of the tenth directory, which the run classifies,
    lies ten deep. *)
Lemma recursion_depth_ceiling_witness :
  backup_directory init (repeat "d" 11)
    (Directory "d" NoGitignore true [File "lost.c" 1 CopyOk]) 11 initial =
  log WARNING (MaximumRecursionDepth (repeat "d" 11)) initial /\
  backup_directory init (repeat "d" 10)
    (Directory "d" NoGitignore true [File "kept.c" 1 CopyOk]) 10 initial =
  backup_items init (repeat "d" 10) ∅ 10
    [File "kept.c" 1 CopyOk]
    (emit (Iterdir (repeat "d" 10))
       (snd (load_gitignore_patterns (repeat "d" 10) NoGitignore initial))) /\
  backup_item init (repeat "d" 10) ∅ 10
    (Directory "d" NoGitignore true [File "lost.c" 1 CopyOk]) initial =
  log WARNING (MaximumRecursionDepth (repeat "d" 10 ++ ["d"]))
    (emit (ClassifyDirectory (repeat "d" 10 ++ ["d"]) false) initial) /\
  (length (repeat "d" 10) <= 10)%nat.
Proof.
  split; [| split; [| split]].
  - apply (proj1 recursion_depth_ceiling). lia.
  - apply (proj1 (proj2 recursion_depth_ceiling)). lia.
  - apply (proj1 (proj2 (proj2 recursion_depth_ceiling))).
    vm_compute. reflexivity.
  - apply (proj2 (proj2 (proj2 recursion_depth_ceiling)) init deep_tree
             (ClassifyFile (repeat "d" 10 ++ ["kept.c"]) false)).
    + apply list_elem_of_In. vm_compute.
      repeat first [left; reflexivity | right].
    + reflexivity.
Defined.

(** The whole run on [deep_tree]: [kept.c] is copied, [lost.c] is never
    seen, the error counter stays at 0. *)
Example deep_tree_run :
  st_stats (backup_directory init [] deep_tree 0 initial) =
    {| copied := 1; skipped := 0; errors := 0; size_copied := 1 |} /\
  Log WARNING (MaximumRecursionDepth (repeat "d" 11))
    ∈ st_trace (backup_directory init [] deep_tree 0 initial) /\
  forall skip, ClassifyFile (repeat "d" 11 ++ ["lost.c"]) skip
    ∉ st_trace (backup_directory init [] deep_tree 0 initial).
Proof.
  split; [vm_compute; reflexivity |]. split.
  - apply list_elem_of_In. vm_compute.
    repeat first [left; reflexivity | right].
  - intros skip Hin. apply list_elem_of_In in Hin. vm_compute in Hin.
    repeat (destruct Hin as [Hin | Hin]; [discriminate Hin |]).
    exact Hin.
Qed.

(** ** Gitignore scoping *)

Lemma filter_snoc_same (K : event -> bool) (t t' : list event) (e : event) :
  List.filter K t = List.filter K t' ->
  List.filter K (t ++ [e]) = List.filter K (t' ++ [e]).
Proof. intros H. rewrite !List.filter_app, H. reflexivity. Qed.

Lemma filter_snoc_hidden (K : event -> bool) (t : list event) (e : event) :
  K e = false -> List.filter K (t ++ [e]) = List.filter K t.
Proof.
  intros H. rewrite List.filter_app. simpl. rewrite H. apply app_nil_r.
Qed.

Ltac same_events :=
  simpl in *; repeat first [assumption | apply filter_snoc_same].

Lemma hidden_agree (K : event -> bool) (f g : state -> state) :
  hidden K f -> hidden K g -> agree K f g.
Proof. intros Hf Hg st st' H. rewrite Hf, Hg. exact H. Qed.

Lemma agree_backup_file K self item pats size copy :
  agree K (backup_file self item pats size copy)
          (backup_file self item pats size copy).
Proof.
  intros st st' H. unfold backup_file.
  destruct (should_skip_file self item pats); [same_events |].
  destruct copy; same_events.
Qed.

Lemma agree_backup_leaf K self src_dir pats item :
  agree K (backup_leaf self src_dir pats item)
          (backup_leaf self src_dir pats item).
Proof.
  destruct item as [nm size copy | nm g l es | nm [size copy| | |] | nm | nm [|]];
    intros st st' H; unfold backup_leaf; try exact H;
    try (apply agree_backup_file; exact H); same_events.
Qed.

(** The patterns loaded do not depend on the state of the run. *)
Lemma loaded_patterns (directory : path) (gitignore : gitignore_file) (st : state) :
  fst (load_gitignore_patterns directory gitignore st) =
  fst (load_gitignore_patterns directory gitignore initial).
Proof. destruct gitignore; reflexivity. Qed.

Lemma agree_backup_directory (K : event -> bool) (self : MigrationPrep)
    (node : entry) :
  forall (src_dir : path) (level : Z),
    agree K (backup_directory self src_dir node level)
            (backup_directory self src_dir node level).
Proof.
  induction node as [nm size copy | nm g l es IH | nm target | nm | nm err]
    using entry_ind;
    intros src_dir level st st' H; rewrite !backup_directory_unfold;
    destruct (10 <? level); try (same_events; fail).
  cbv zeta.
  rewrite (loaded_patterns src_dir g st), (loaded_patterns src_dir g st').
  assert (Hloaded :
            List.filter K (st_trace (emit (Iterdir src_dir)
                             (snd (load_gitignore_patterns src_dir g st)))) =
            List.filter K (st_trace (emit (Iterdir src_dir)
                             (snd (load_gitignore_patterns src_dir g st')))))
    by (destruct g; same_events).
  destruct (fst (load_gitignore_patterns src_dir g initial)) as [pats|];
    [| destruct g; same_events].
  destruct l; [| same_events].
  generalize dependent (emit (Iterdir src_dir)
                          (snd (load_gitignore_patterns src_dir g st'))).
  generalize dependent (emit (Iterdir src_dir)
                          (snd (load_gitignore_patterns src_dir g st))).
  clear st st' H. revert pats.
  induction IH as [|item rest Hitem _ IHrest]; intros pats st st' H;
    [exact H |].
  rewrite !backup_items_cons. apply IHrest.
  destruct item as [nm' size copy | nm' g' l' es' | nm' target | nm' | nm' err];
    try (apply agree_backup_leaf; exact H).
  unfold backup_item.
  destruct (should_skip_directory self (src_dir ++ [nm'])); simpl negb; cbv iota.
  - same_events.
  - apply Hitem. same_events.
Qed.

Lemma agree_backup_item_directory (K : event -> bool) self src_dir pats pats'
    level nm g l es :
  agree K
    (backup_item self src_dir pats level (Directory nm g l es))
    (backup_item self src_dir pats' level (Directory nm g l es)).
Proof.
  intros st st' H. unfold backup_item.
  destruct (should_skip_directory self (src_dir ++ [nm])); simpl negb; cbv iota.
  - same_events.
  - apply agree_backup_directory. same_events.
Qed.

Lemma elsewhere_entry (src_dir : path) (nm : string) :
  elsewhere src_dir (Copy2 (src_dir ++ [nm])) = false /\
  elsewhere src_dir (Log ERROR (FailedToCopy (src_dir ++ [nm]))) = false /\
  forall skip, elsewhere src_dir (ClassifyFile (src_dir ++ [nm]) skip) = false.
Proof.
  unfold elsewhere. simpl. rewrite removelast_last.
  rewrite bool_decide_eq_true_2 by reflexivity. auto.
Qed.

Lemma hidden_backup_file self src_dir nm pats size copy :
  hidden (elsewhere src_dir)
    (backup_file self (src_dir ++ [nm]) pats size copy).
Proof.
  intros st. unfold backup_file.
  destruct (elsewhere_entry src_dir nm) as (Hc & Hl & Hf).
  destruct (should_skip_file self (src_dir ++ [nm]) pats), copy; simpl;
    rewrite ?filter_snoc_hidden; auto.
Qed.

Lemma hidden_load_gitignore (directory : path) (gitignore : gitignore_file) :
  hidden (elsewhere directory)
    (fun st => snd (load_gitignore_patterns directory gitignore st)).
Proof.
  intros st.
  assert (H1 : elsewhere directory (LoadGitignore directory) = false)
    by (unfold elsewhere; simpl; rewrite bool_decide_eq_true_2; reflexivity).
  assert (H2 : elsewhere directory
                 (Log WARNING (CouldNotReadGitignore directory)) = false)
    by (unfold elsewhere; simpl; rewrite bool_decide_eq_true_2; reflexivity).
  destruct gitignore; simpl; rewrite ?filter_snoc_hidden; auto.
Qed.

Lemma agree_backup_leaf_patterns self src_dir pats pats' item :
  agree (elsewhere src_dir)
    (backup_leaf self src_dir pats item)
    (backup_leaf self src_dir pats' item).
Proof.
  destruct item as [nm size copy | nm g l es | nm [size copy| | |] | nm | nm err];
    try (apply hidden_agree; apply hidden_backup_file).
  - exact (agree_backup_leaf _ self src_dir pats (Directory nm g l es)).
  - exact (agree_backup_leaf _ self src_dir pats (Symlink nm ToDirectory)).
  - exact (agree_backup_leaf _ self src_dir pats (Symlink nm ToOther)).
  - exact (agree_backup_leaf _ self src_dir pats (Symlink nm Dangling)).
  - exact (agree_backup_leaf _ self src_dir pats (Special nm)).
  - exact (agree_backup_leaf _ self src_dir pats (Unreadable nm err)).
Qed.

Lemma agree_backup_items_patterns self src_dir level (items : list entry) :
  forall pats pats',
    agree (elsewhere src_dir)
      (backup_items self src_dir pats level items)
      (backup_items self src_dir pats' level items).
Proof.
  induction items as [|item rest IH]; intros pats pats' st st' H; [exact H |].
  rewrite !backup_items_cons. apply IH.
  destruct item as [nm size copy | nm g l es | nm target | nm | nm err];
    try (apply agree_backup_leaf_patterns; exact H).
  apply agree_backup_item_directory. exact H.
Qed.

(** Replacing the [.gitignore] of the directory being visited. *)
Lemma reachable_loads (directory : path) (gitignore : gitignore_file)
    (st : state) :
  reachable gitignore = true ->
  exists pats, fst (load_gitignore_patterns directory gitignore st) = Some pats.
Proof. destruct gitignore; try discriminate; intros _; eexists; reflexivity. Qed.

Lemma agree_changed_gitignore self src_dir level nm gitignore gitignore'
    listable entries :
  reachable gitignore = true ->
  reachable gitignore' = true ->
  agree (elsewhere src_dir)
    (backup_directory self src_dir
       (Directory nm gitignore' listable entries) level)
    (backup_directory self src_dir
       (Directory nm gitignore listable entries) level).
Proof.
  intros Hg Hg' st st' H. rewrite !backup_directory_unfold.
  destruct (10 <? level); [same_events |]. cbv zeta.
  destruct (reachable_loads src_dir gitignore st' Hg) as (pats & ->).
  destruct (reachable_loads src_dir gitignore' st Hg') as (pats' & ->).
  assert (Hloaded :
    List.filter (elsewhere src_dir)
      (st_trace (emit (Iterdir src_dir)
                   (snd (load_gitignore_patterns src_dir gitignore' st)))) =
    List.filter (elsewhere src_dir)
      (st_trace (emit (Iterdir src_dir)
                   (snd (load_gitignore_patterns src_dir gitignore st'))))).
  { unfold emit. cbn [st_trace]. apply filter_snoc_same.
    rewrite (hidden_load_gitignore src_dir gitignore' st).
    rewrite (hidden_load_gitignore src_dir gitignore st'). exact H. }
  destruct listable.
  - apply agree_backup_items_patterns. exact Hloaded.
  - unfold count_error, with_stats, log. cbn [st_trace].
    unfold emit at 1 3. cbn [st_trace]. apply filter_snoc_same.
    unfold emit in Hloaded. cbn [st_trace] in Hloaded. exact Hloaded.
Qed.

Lemma backup_item_set_gitignore self src_dir pats level q gitignore'
    nm g l es (st : state) :
  backup_item self src_dir pats level
    (set_gitignore q gitignore' (Directory nm g l es)) st =
  let item_path := src_dir ++ [nm] in
  let skip := should_skip_directory self item_path in
  let st := emit (ClassifyDirectory item_path skip) st in
  if negb skip
  then backup_directory self item_path
         (set_gitignore q gitignore' (Directory nm g l es)) (level + 1) st
  else count_skipped (log INFO (SkippingDirectory item_path) st).
Proof. destruct q; reflexivity. Qed.

Lemma set_gitignore_leaf q gitignore' (node : entry) :
  (forall nm g l es, node <> Directory nm g l es) ->
  set_gitignore q gitignore' node = node.
Proof.
  intros H. destruct q, node; try reflexivity; exfalso; eapply H; reflexivity.
Qed.

(** Replacing the [.gitignore] of the directory at [q] below [src_dir]. *)
Lemma agree_set_gitignore (self : MigrationPrep) (gitignore' : gitignore_file)
    (node : entry) :
  reachable gitignore' = true ->
  forall (q src_dir : path) (level : Z),
    searchable_at q node = true ->
    agree (elsewhere (src_dir ++ q))
      (backup_directory self src_dir (set_gitignore q gitignore' node) level)
      (backup_directory self src_dir node level).
Proof.
  intros Hg'.
  induction node as [nm size copy | nm g l es IH | nm target | nm | nm err]
    using entry_ind; intros q src_dir level Hq;
    try (rewrite set_gitignore_leaf by discriminate;
         apply agree_backup_directory).
  destruct q as [|x q'].
  { rewrite app_nil_r. apply agree_changed_gitignore; [exact Hq | exact Hg']. }
  cbn [searchable_at] in Hq.
  intros st st' H. cbn [set_gitignore]. rewrite !backup_directory_unfold.
  destruct (10 <? level); [same_events |]. cbv zeta.
  rewrite (loaded_patterns src_dir g st), (loaded_patterns src_dir g st').
  assert (Hloaded :
    List.filter (elsewhere (src_dir ++ x :: q'))
      (st_trace (emit (Iterdir src_dir)
                   (snd (load_gitignore_patterns src_dir g st)))) =
    List.filter (elsewhere (src_dir ++ x :: q'))
      (st_trace (emit (Iterdir src_dir)
                   (snd (load_gitignore_patterns src_dir g st')))))
    by (destruct g; same_events).
  destruct (fst (load_gitignore_patterns src_dir g initial)) as [pats|];
    [| destruct g; same_events].
  destruct l; [| same_events].
  generalize dependent (emit (Iterdir src_dir)
                          (snd (load_gitignore_patterns src_dir g st'))).
  generalize dependent (emit (Iterdir src_dir)
                          (snd (load_gitignore_patterns src_dir g st))).
  clear st st' H. revert pats.
  induction IH as [|item rest Hitem _ IHrest]; intros pats st st' H;
    [exact H |].
  cbn [forallb] in Hq. apply andb_true_iff in Hq as [Hq_item Hq_rest].
  cbn [map]. rewrite !backup_items_cons. apply (IHrest Hq_rest).
  destruct (String.eqb (entry_name item) x) eqn:Hx.
  2:{ destruct item as [nm' size copy | nm' g' l' es' | nm' target | nm' | nm' err];
        try (apply agree_backup_leaf; exact H).
      apply agree_backup_item_directory. exact H. }
  apply String.eqb_eq in Hx.
  destruct item as [nm' size copy | nm' g' l' es' | nm' target | nm' | nm' err];
    try (rewrite set_gitignore_leaf by discriminate;
         apply agree_backup_leaf; exact H).
  simpl in Hx. subst nm'.
  rewrite backup_item_set_gitignore. cbv zeta. unfold backup_item.
  destruct (should_skip_directory self (src_dir ++ [x])); simpl negb; cbv iota.
  - same_events.
  - replace (src_dir ++ x :: q') with ((src_dir ++ [x]) ++ q')
      by (rewrite <- app_assoc; reflexivity).
    apply (Hitem q' (src_dir ++ [x]) (level + 1) Hq_item).
    replace ((src_dir ++ [x]) ++ q') with (src_dir ++ x :: q')
      by (rewrite <- app_assoc; reflexivity).
    same_events.
Qed.

(** C4. The pattern set of a directory reaches only the files directly in
    it.  Replace the [.gitignore] of the directory at [q] by any other,
    absent, readable or unreadable (the directory being one that can be
    searched, so that there is a [.gitignore] to look for): apart from the
    loading of that file and from the classification and copy of the files
    directly in [q], the run does the same things in the same order.  In
    particular every file in another directory, a sibling or a child of [q]
    included, gets the same decision. *)
Theorem gitignore_scoping (self : MigrationPrep) (root : entry) (q : path)
    (gitignore' : gitignore_file) :
  searchable_at q root = true ->
  reachable gitignore' = true ->
  let before := st_trace (backup_directory self [] root 0 initial) in
  let after :=
    st_trace (backup_directory self []
                (set_gitignore q gitignore' root) 0 initial) in
  List.filter (elsewhere q) after = List.filter (elsewhere q) before /\
  (forall (file_path : path) (skip : bool),
     removelast file_path <> q ->
     (ClassifyFile file_path skip ∈ after <->
      ClassifyFile file_path skip ∈ before)).
Proof.
  intros Hq Hg' before after.
  assert (H : List.filter (elsewhere q) after = List.filter (elsewhere q) before).
  { subst before after.
    apply (agree_set_gitignore self gitignore' root Hg' q [] 0 Hq
             initial initial).
    reflexivity. }
  split; [exact H |].
  intros file_path skip Hne.
  assert (Hk : elsewhere q (ClassifyFile file_path skip) = true).
  { unfold elsewhere. simpl. rewrite bool_decide_eq_false_2 by exact Hne.
    reflexivity. }
  rewrite !list_elem_of_In.
  split; intros Hin.
  - apply (proj1 (List.filter_In (elsewhere q) _ before)).
    rewrite <- H. apply List.filter_In. split; assumption.
  - apply (proj1 (List.filter_In (elsewhere q) _ after)).
    rewrite H. apply List.filter_In. split; assumption.
Qed.

(** Emptying the [.gitignore] of [a] changes nothing for [b/z.c]. *)
Lemma gitignore_scoping_witness :
  searchable_at ["a"] two_directories = true /\
  reachable (Gitignore []) = true /\
  removelast ["b"; "z.c"] <> ["a"] /\
  (ClassifyFile ["b"; "z.c"] false
     ∈ st_trace (backup_directory init []
                   (set_gitignore ["a"] (Gitignore []) two_directories)
                   0 initial) <->
   ClassifyFile ["b"; "z.c"] false
     ∈ st_trace (backup_directory init [] two_directories 0 initial)).
Proof.
  split; [reflexivity |]. split; [reflexivity |]. split; [discriminate |].
  apply (proj2 (gitignore_scoping init two_directories ["a"] (Gitignore [])
                  eq_refl eq_refl)).
  discriminate.
Defined.

(** The two runs on [two_directories]: with [*.c] ignored in [a], [a/x.c] is
    skipped while [a/sub/y.c] and [b/z.c] are copied; with the [.gitignore] of
    [a] emptied, only the decision on [a/x.c] changes. *)
Example two_directories_runs :
  st_trace (backup_directory init [] two_directories 0 initial) =
    [ LoadGitignore []; Iterdir [];
      ClassifyDirectory ["a"] false; LoadGitignore ["a"]; Iterdir ["a"];
      ClassifyFile ["a"; "x.c"] true;
      ClassifyDirectory ["a"; "sub"] false;
      LoadGitignore ["a"; "sub"]; Iterdir ["a"; "sub"];
      ClassifyFile ["a"; "sub"; "y.c"] false; Copy2 ["a"; "sub"; "y.c"];
      ClassifyDirectory ["b"] false; LoadGitignore ["b"]; Iterdir ["b"];
      ClassifyFile ["b"; "z.c"] false; Copy2 ["b"; "z.c"] ] /\
  st_trace (backup_directory init []
              (set_gitignore ["a"] (Gitignore []) two_directories) 0 initial) =
    [ LoadGitignore []; Iterdir [];
      ClassifyDirectory ["a"] false; LoadGitignore ["a"]; Iterdir ["a"];
      ClassifyFile ["a"; "x.c"] false; Copy2 ["a"; "x.c"];
      ClassifyDirectory ["a"; "sub"] false;
      LoadGitignore ["a"; "sub"]; Iterdir ["a"; "sub"];
      ClassifyFile ["a"; "sub"; "y.c"] false; Copy2 ["a"; "sub"; "y.c"];
      ClassifyDirectory ["b"] false; LoadGitignore ["b"]; Iterdir ["b"];
      ClassifyFile ["b"; "z.c"] false; Copy2 ["b"; "z.c"] ].
Proof. split; vm_compute; reflexivity. Qed.

(** * Further properties of the code *)

(** ** [load_gitignore_patterns]: what ends up in the set *)

Lemma add_lines_spec (lines : list string) (patterns : gset string) (p : string) :
  p ∈ add_lines lines patterns <->
  p ∈ patterns \/
  exists line, line ∈ lines /\ p = strip line /\
               is_empty p = false /\ startswith p "#" = false.
Proof.
  revert patterns. induction lines as [|l ls IH]; intros patterns; simpl.
  - split; [intros H; left; exact H |].
    intros [H | (x & Hx & _)]; [exact H | inversion Hx].
  - destruct (is_empty (strip l)) eqn:He; simpl.
    + rewrite IH. split.
      * intros [H | (x & Hx & H)]; [left; exact H | right].
        exists x. split; [right; exact Hx | exact H].
      * intros [H | (x & Hx & Hp & Hne & Hc)]; [left; exact H |].
        apply elem_of_cons in Hx as [-> | Hx]; [congruence |].
        right. exists x. auto.
    + destruct (startswith (strip l) "#") eqn:Hc; simpl; rewrite IH.
      * split.
        -- intros [H | (x & Hx & H)]; [left; exact H | right].
           exists x. split; [right; exact Hx | exact H].
        -- intros [H | (x & Hx & Hp & Hne & Hc')]; [left; exact H |].
           apply elem_of_cons in Hx as [-> | Hx]; [congruence |].
           right. exists x. auto.
      * split.
        -- intros [H | (x & Hx & H)].
           ++ apply elem_of_union in H as [H | H]; [| left; exact H].
              apply elem_of_singleton in H. subst p.
              right. exists l. split; [left | auto].
           ++ right. exists x. split; [right; exact Hx | exact H].
        -- intros [H | (x & Hx & Hp & Hne & Hc')].
           ++ left. apply elem_of_union. right. exact H.
           ++ apply elem_of_cons in Hx as [-> | Hx].
              ** left. apply elem_of_union. left.
                 apply elem_of_singleton. exact Hp.
              ** right. exists x. auto.
Qed.

(** X1. Loading a readable [.gitignore] returns, and the set returned holds
    exactly the lines of the file, stripped, that are neither empty nor
    comments: order and repetition of the lines do not matter. *)
Theorem loaded_patterns_are_the_stripped_lines (directory : path)
    (lines : list string) (st : state) :
  exists patterns,
    fst (load_gitignore_patterns directory (Gitignore lines) st) =
      Some patterns /\
    forall p, p ∈ patterns <->
              exists line, line ∈ lines /\ p = strip line /\
                           is_empty p = false /\ startswith p "#" = false.
Proof.
  exists (add_lines lines ∅). split; [reflexivity |].
  intros p. rewrite add_lines_spec. split.
  - intros [H | H]; [| exact H]. exfalso. revert H. apply not_elem_of_empty.
  - intros H. right. exact H.
Qed.

Lemma lstrip_head (s : string) :
  lstrip s = EmptyString \/
  exists c t, lstrip s = String c t /\ is_space c = false.
Proof.
  induction s as [|c s IH]; simpl; [left; reflexivity |].
  destruct (is_space c) eqn:Hc; [exact IH |].
  right. exists c, s. split; [reflexivity | exact Hc].
Qed.

Lemma rstrip_head (c : ascii) (t : string) :
  is_space c = false -> exists r, rstrip (String c t) = String c r.
Proof.
  intros Hc. simpl. destruct (rstrip t); [rewrite Hc |]; eexists; reflexivity.
Qed.

Lemma rstrip_idempotent (s : string) : rstrip (rstrip s) = rstrip s.
Proof.
  induction s as [|c s IH]; simpl; [reflexivity |].
  destruct (rstrip s) as [|d r] eqn:Hr.
  - destruct (is_space c) eqn:Hc; simpl; [reflexivity |].
    rewrite Hc. reflexivity.
  - change (rstrip (String c (String d r))) with
      (match rstrip (String d r) with
       | EmptyString => if is_space c then EmptyString else String c EmptyString
       | r' => String c r'
       end).
    rewrite IH. reflexivity.
Qed.

Lemma strip_idempotent (s : string) : strip (strip s) = strip s.
Proof.
  unfold strip. destruct (lstrip_head s) as [-> | (c & t & -> & Hc)];
    [reflexivity |].
  destruct (rstrip_head c t Hc) as (r & Hr).
  rewrite Hr. simpl lstrip. rewrite Hc, <- Hr. apply rstrip_idempotent.
Qed.

(** X2. Whatever the state of the [.gitignore] (absent, readable, failing
    part-way), every pattern of a set that [load_gitignore_patterns] returns
    is non-empty, is not a comment, and carries no white space at either
    end. *)
Theorem loaded_patterns_are_clean (directory : path) (gitignore : gitignore_file)
    (st : state) (patterns : gset string) (p : string) :
  fst (load_gitignore_patterns directory gitignore st) = Some patterns ->
  p ∈ patterns ->
  strip p = p /\ is_empty p = false /\ startswith p "#" = false.
Proof.
  intros Hload H.
  assert (Hl : exists (lines : list string) line,
                 line ∈ lines /\ p = strip line /\
                 is_empty p = false /\ startswith p "#" = false).
  { destruct gitignore as [|lines|lines|]; simpl in Hload;
      try discriminate Hload; inversion Hload; subst patterns.
    - exfalso. revert H. apply not_elem_of_empty.
    - apply add_lines_spec in H as [H | H]; [| exists lines; exact H].
      exfalso. revert H. apply not_elem_of_empty.
    - apply add_lines_spec in H as [H | H]; [| exists lines; exact H].
      exfalso. revert H. apply not_elem_of_empty. }
  destruct Hl as (lines & line & _ & Hp & Hne & Hc).
  split; [| split; assumption].
  rewrite Hp. apply strip_idempotent.
Qed.

Lemma loaded_patterns_are_clean_witness :
  fst (load_gitignore_patterns ["home"]
         (Gitignore ["# editor files"; ""; "  *.bak  "; "*.bak"]) initial) =
    Some (add_lines ["# editor files"; ""; "  *.bak  "; "*.bak"] ∅) /\
  "*.bak" ∈ add_lines ["# editor files"; ""; "  *.bak  "; "*.bak"] ∅ /\
  strip "*.bak" = "*.bak" /\ is_empty "*.bak" = false /\
  startswith "*.bak" "#" = false.
Proof.
  assert (H : "*.bak" ∈ add_lines ["# editor files"; ""; "  *.bak  "; "*.bak"] ∅).
  { apply add_lines_spec. right.
    exists "  *.bak  ". split; [| vm_compute; auto].
    apply list_elem_of_In. vm_compute. tauto. }
  split; [reflexivity |]. split; [exact H |].
  exact (loaded_patterns_are_clean ["home"]
           (Gitignore ["# editor files"; ""; "  *.bak  "; "*.bak"]) initial
           _ "*.bak" eq_refl H).
Defined.

(** ** The classifier *)

(** X3. Adding patterns to the active gitignore set never turns a skipped
    file into a kept one. *)
Theorem should_skip_file_monotone (self : MigrationPrep) (file_path : path)
    (gitignore_patterns more_patterns : gset string) :
  gitignore_patterns ⊆ more_patterns ->
  should_skip_file self file_path gitignore_patterns = true ->
  should_skip_file self file_path more_patterns = true.
Proof.
  intros Hsub. unfold should_skip_file.
  destruct (matches_any (name file_path) (keep_patterns self)); [discriminate |].
  destruct (gitignore_hit _ _ (elements gitignore_patterns)) eqn:Hg.
  - intros _. apply gitignore_set_hit in Hg as (pat & Hin & Hm).
    assert (Hg' : gitignore_applies more_patterns file_path)
      by (exists pat; split; [apply Hsub, Hin | exact Hm]).
    apply gitignore_set_hit in Hg'. rewrite Hg'. reflexivity.
  - destruct (matches_any (name file_path) (skip_patterns self));
      [| discriminate].
    intros _. destruct (gitignore_hit _ _ (elements more_patterns)); reflexivity.
Qed.

Lemma should_skip_file_monotone_witness :
  ({[ "*.c" ]} : gset string) ⊆ {[ "*.c"; "*.h" ]} /\
  should_skip_file init ["src"; "main.c"] {[ "*.c" ]} = true /\
  should_skip_file init ["src"; "main.c"] {[ "*.c"; "*.h" ]} = true.
Proof.
  assert (Hsub : ({[ "*.c" ]} : gset string) ⊆ {[ "*.c"; "*.h" ]})
    by set_solver.
  assert (Hskip : should_skip_file init ["src"; "main.c"] {[ "*.c" ]} = true)
    by (vm_compute; reflexivity).
  split; [exact Hsub |]. split; [exact Hskip |].
  exact (should_skip_file_monotone init ["src"; "main.c"] _ _ Hsub Hskip).
Defined.

Lemma append_assoc (a b c : string) :
  String.append (String.append a b) c = String.append a (String.append b c).
Proof.
  induction a as [|x a IH]; [reflexivity |].
  change (String x (String.append (String.append a b) c) =
          String x (String.append a (String.append b c))).
  rewrite IH. reflexivity.
Qed.

Lemma append_empty (a : string) : String.append a EmptyString = a.
Proof.
  induction a as [|x a IH]; [reflexivity |].
  change (String x (String.append a EmptyString) = String x a).
  rewrite IH. reflexivity.
Qed.

(** The relative path of an entry starts with the relative path of every
    directory above it. *)
Lemma relative_path_app (p rest : path) :
  p <> [] ->
  exists t, relative_path (p ++ rest) = String.append (relative_path p) t.
Proof.
  unfold relative_path. induction p as [|x p IH]; [contradiction |].
  intros _. destruct p as [|y p].
  - destruct rest as [|z rest].
    + exists EmptyString. simpl. symmetry. apply append_empty.
    + eexists. reflexivity.
  - destruct (IH ltac:(discriminate)) as (t & Ht).
    exists t.
    change (String.append x (String.append "/"
              (String.concat "/" ((y :: p) ++ rest))) =
            String.append
              (String.append x (String.append "/" (String.concat "/" (y :: p))))
              t).
    rewrite Ht, !append_assoc. reflexivity.
Qed.

(** X4. Keep-dotfile entries are matched as string prefixes of the
    relative path, so they reach everything below: once the relative path of
    a directory starts with a keep-dotfile entry, no directory anywhere under
    it is skipped, whatever its name. *)
Theorem keep_dotfile_prefix_reaches_below (self : MigrationPrep)
    (dir_path below : path) (keep_pattern : string) :
  dir_path <> [] ->
  keep_pattern ∈ keep_dotfiles self ->
  startswith (relative_path dir_path) keep_pattern = true ->
  should_skip_directory self (dir_path ++ below) = false.
Proof.
  intros Hne Hin Hpre.
  apply (should_skip_directory_cases self (dir_path ++ below)).
  exists keep_pattern. split; [exact Hin |]. left.
  apply startswith_spec in Hpre as (t & Ht).
  destruct (relative_path_app dir_path below Hne) as (u & Hu).
  exists (String.append t u). rewrite Hu, Ht. apply append_assoc.
Qed.

(** Under [.config], a [node_modules] inside a [.git] inside a project is
    still descended into. *)
Lemma keep_dotfile_prefix_reaches_below_witness :
  should_skip_directory init
    ([".config"] ++ ["project"; ".git"; "node_modules"]) = false.
Proof.
  apply (keep_dotfile_prefix_reaches_below init [".config"]
           ["project"; ".git"; "node_modules"] ".config").
  - discriminate.
  - apply in_keep_dotfiles_init. vm_compute. tauto.
  - vm_compute. reflexivity.
Defined.

(** ** Invariants of the traversal *)

Lemma every_entry_directory (W : entry -> Prop) nm g l (es : list entry) :
  every_entry W (Directory nm g l es) <->
  W (Directory nm g l es) /\ Forall (every_entry W) es.
Proof.
  simpl. split; intros [Hw Hes]; (split; [exact Hw |]).
  - clear Hw. induction es as [|item rest IH]; [constructor |].
    destruct Hes as [Hitem Hrest].
    constructor; [exact Hitem | apply IH, Hrest].
  - clear Hw. induction Hes as [|item rest Hitem _ IH]; [exact Logic.I |].
    split; [exact Hitem | exact IH].
Qed.

Lemma every_entry_trivial (node : entry) : every_entry (fun _ => True) node.
Proof.
  induction node as [nm size copy | nm g l es IH | nm target | nm | nm err]
    using entry_ind; try (split; exact Logic.I).
  apply every_entry_directory. split; [exact Logic.I | exact IH].
Qed.

(** A property of the state that every step of the loop keeps is kept by the
    whole traversal of a tree whose entries satisfy [W]. *)
Lemma backup_directory_invariant (Inv : state -> Prop) (W : entry -> Prop)
    (self : MigrationPrep) :
  (forall d st, Inv st -> Inv (log WARNING (MaximumRecursionDepth d) st)) ->
  (forall d g st, Inv st -> Inv (snd (load_gitignore_patterns d g st))) ->
  (forall d st, Inv st -> Inv (emit (Iterdir d) st)) ->
  (forall d st,
     Inv st -> Inv (count_error (log ERROR (ErrorScanningDirectory d) st))) ->
  (forall p st, Inv st -> Inv (emit (ClassifyDirectory p false) st)) ->
  (forall p st,
     Inv st ->
     Inv (count_skipped (log INFO (SkippingDirectory p)
                           (emit (ClassifyDirectory p true) st)))) ->
  (forall d pats item st,
     W item -> Inv st -> Inv (backup_leaf self d pats item st)) ->
  forall node d level st,
    every_entry W node -> Inv st -> Inv (backup_directory self d node level st).
Proof.
  intros Hdepth Hload Hiter Hscan Hkeep Hskip Hleaf.
  induction node as [nm size copy | nm g l es IH | nm target | nm | nm err]
    using entry_ind;
    intros d level st Hw Hst; rewrite backup_directory_unfold;
    destruct (10 <? level); try (apply Hdepth; exact Hst);
    try (apply Hscan, Hiter; exact (Hload d NoGitignore st Hst)).
  cbv zeta. apply every_entry_directory in Hw as [_ Hw].
  pose proof (Hload d g st Hst) as Hloaded.
  destruct (fst (load_gitignore_patterns d g st)) as [pats|];
    [| apply Hscan; exact Hloaded].
  pose proof (Hiter d _ Hloaded) as Hst'.
  destruct l; [| apply Hscan; exact Hst'].
  generalize dependent (emit (Iterdir d) (snd (load_gitignore_patterns d g st))).
  clear st Hst Hloaded. revert pats.
  induction IH as [|item rest Hitem _ IHrest]; intros pats st Hst;
    [exact Hst |].
  apply Forall_cons in Hw as [Hw_item Hw_rest].
  rewrite backup_items_cons. apply (IHrest Hw_rest).
  destruct item as [nm' size copy | nm' g' l' es' | nm' target | nm' | nm' err];
    try (apply Hleaf; [apply Hw_item | exact Hst]).
  unfold backup_item.
  destruct (should_skip_directory self (d ++ [nm'])); simpl negb; cbv iota.
  - apply Hskip, Hst.
  - apply Hitem; [exact Hw_item | apply Hkeep, Hst].
Qed.

Lemma count_snoc (kind : event -> bool) (trace : list event) (e : event) :
  count kind (trace ++ [e]) = count kind trace + (if kind e then 1 else 0).
Proof.
  unfold count. rewrite List.filter_app, length_app. simpl.
  destruct (kind e); simpl; lia.
Qed.

#[local] Arguments count : simpl never.

(** Settles a step of the loop for [counters_match_trace]. *)
Ltac counters_step :=
  unfold counters_match_trace in *; simpl in *; rewrite ?count_snoc; simpl;
  intuition lia.

Lemma counters_match_trace_kept (self : MigrationPrep) (node : entry)
    (d : path) (level : Z) (st : state) :
  counters_match_trace st ->
  counters_match_trace (backup_directory self d node level st).
Proof.
  intros Hst.
  apply (backup_directory_invariant counters_match_trace (fun _ => True) self);
    try exact Hst; try apply every_entry_trivial; clear.
  - intros; counters_step.
  - intros d [|lines|lines|] st H; counters_step.
  - intros; counters_step.
  - intros; counters_step.
  - intros; counters_step.
  - intros; counters_step.
  - intros d pats item st _ H.
    destruct item as [nm size copy | nm g l es | nm [size copy| | |] | nm | nm [|]];
      unfold backup_leaf, backup_file; try exact H;
      try (destruct (should_skip_file self _ pats); [| destruct copy]);
      counters_step.
Qed.

(** X5. After a traversal started with fresh counters, [copied] is the
    number of calls of [shutil.copy2] that returned (a file that [copy2]
    created before raising is in the destination and is not counted),
    [skipped] the number of files and directories the classifier rejected,
    and [errors] the number of error records logged by the four handlers
    that count one. *)
Theorem counters_agree_with_trace (self : MigrationPrep) (d : path)
    (node : entry) (level : Z) :
  let st := backup_directory self d node level initial in
  copied (st_stats st) = count written (st_trace st) /\
  skipped (st_stats st) = count skip_decision (st_trace st) /\
  errors (st_stats st) = count error_record (st_trace st).
Proof.
  apply (counters_match_trace_kept self node d level initial).
  repeat split.
Qed.

(** Settles a step of the loop for [counters_not_below]. *)
Ltac not_below_step :=
  unfold counters_not_below in *; simpl in *; intuition lia.

(** X6. File sizes being natural numbers, no counter ever goes down during
    a traversal, from whatever state it starts. *)
Theorem counters_never_decrease (self : MigrationPrep) (d : path)
    (node : entry) (level : Z) (st : state) :
  every_entry size_is_natural node ->
  counters_not_below st (backup_directory self d node level st).
Proof.
  intros Hw.
  apply (backup_directory_invariant (counters_not_below st) size_is_natural self);
    try exact Hw; try (unfold counters_not_below; lia); clear.
  - intros; not_below_step.
  - intros d [|lines|lines|] st' H; not_below_step.
  - intros; not_below_step.
  - intros; not_below_step.
  - intros; not_below_step.
  - intros; not_below_step.
  - intros d pats item st' Hw H.
    destruct item as [nm size copy | nm g l es | nm [size copy| | |] | nm | nm [|]];
      unfold backup_leaf, backup_file; try exact H;
      try (destruct (should_skip_file self _ pats); [| destruct copy]);
      not_below_step.
Qed.

Lemma counters_never_decrease_witness :
  every_entry size_is_natural two_directories /\
  counters_not_below initial
    (backup_directory init [] two_directories 0 initial).
Proof.
  assert (Hw : every_entry size_is_natural two_directories)
    by (vm_compute; intuition discriminate).
  split; [exact Hw |].
  exact (counters_never_decrease init [] two_directories 0 initial Hw).
Defined.

Lemma copies_follow_with_stats (f : stats -> stats) (st : state) :
  copies_follow_decisions st -> copies_follow_decisions (with_stats f st).
Proof. intros H. exact H. Qed.

Lemma copies_follow_emit (e : event) (st : state) :
  (forall p, e = Copy2 p \/ e = Log ERROR (FailedToCopy p) ->
             ClassifyFile p false ∈ st_trace st) ->
  copies_follow_decisions st -> copies_follow_decisions (emit e st).
Proof.
  intros He H p Hp. simpl. apply elem_of_app. left.
  simpl in Hp. rewrite !elem_of_app, !list_elem_of_singleton in Hp.
  destruct Hp as [[Hp | Hp] | [Hp | Hp]].
  - apply H. left. exact Hp.
  - apply He. left. symmetry. exact Hp.
  - apply H. right. exact Hp.
  - apply He. right. symmetry. exact Hp.
Qed.

(** An event that is neither a copy nor a failed copy. *)
Ltac other_event :=
  apply copies_follow_emit; [intros ? [? | ?]; discriminate |].

Lemma copies_follow_backup_file self item pats size copy (st : state) :
  copies_follow_decisions st ->
  copies_follow_decisions (backup_file self item pats size copy st).
Proof.
  intros H. unfold backup_file.
  destruct (should_skip_file self item pats); simpl negb; cbv iota zeta.
  - apply copies_follow_with_stats. other_event. exact H.
  - assert (H1 : copies_follow_decisions (emit (ClassifyFile item false) st))
      by (other_event; exact H).
    assert (Hin : ClassifyFile item false
                    ∈ st_trace (emit (ClassifyFile item false) st))
      by (simpl; apply elem_of_app; right; left).
    assert (Hcopy : copies_follow_decisions
                      (emit (Copy2 item) (emit (ClassifyFile item false) st))).
    { apply copies_follow_emit; [| exact H1].
      intros p [Hp | Hp]; inversion Hp; subst; exact Hin. }
    destruct copy; unfold copy_file_safely; cbn [snd].
    + apply copies_follow_with_stats, copies_follow_with_stats, Hcopy.
    + apply copies_follow_with_stats, copies_follow_emit; [| exact H1].
      intros p [Hp | Hp]; inversion Hp; subst; exact Hin.
    + apply copies_follow_with_stats, copies_follow_emit.
      * intros p [Hp | Hp]; inversion Hp; subst.
        change (ClassifyFile p false
                  ∈ st_trace (emit (ClassifyFile p false) st) ++ [Copy2 p]).
        apply elem_of_app. left. exact Hin.
      * apply copies_follow_with_stats, Hcopy.
    + apply copies_follow_with_stats, copies_follow_emit.
      * intros p [Hp | Hp]; inversion Hp; subst.
        change (ClassifyFile p false
                  ∈ st_trace (emit (ClassifyFile p false) st) ++ [PartialCopy p]).
        apply elem_of_app. left. exact Hin.
      * other_event. exact H1.
Qed.

(** X7. Nothing is copied, and no copy is attempted, before
    [should_skip_file] has answered "keep" for that very path: every
    successful or failed copy in the trace of a traversal has its keep
    decision in the trace. *)
Theorem copies_only_after_keep_decision (self : MigrationPrep) (d : path)
    (node : entry) (level : Z) (p : path) :
  let trace := st_trace (backup_directory self d node level initial) in
  Copy2 p ∈ trace \/ Log ERROR (FailedToCopy p) ∈ trace ->
  ClassifyFile p false ∈ trace.
Proof.
  revert p.
  apply (backup_directory_invariant copies_follow_decisions (fun _ => True) self);
    try apply every_entry_trivial;
    try (intros p [Hp | Hp]; inversion Hp); clear.
  - intros d st H. unfold log. other_event. exact H.
  - intros d [|lines|lines|] st H; simpl; unfold log; repeat other_event; exact H.
  - intros d st H. other_event. exact H.
  - intros d st H. apply copies_follow_with_stats. unfold log.
    other_event. exact H.
  - intros p st H. other_event. exact H.
  - intros p st H. apply copies_follow_with_stats. unfold log.
    repeat other_event. exact H.
  - intros d pats item st _ H.
    destruct item as [nm size copy | nm g l es | nm [size copy| | |] | nm | nm [|]];
      unfold backup_leaf; try exact H;
      try (apply copies_follow_backup_file; exact H);
      apply copies_follow_with_stats; unfold log; other_event; exact H.
Qed.

Lemma copies_only_after_keep_decision_witness :
  Copy2 ["b"; "z.c"]
    ∈ st_trace (backup_directory init [] two_directories 0 initial) /\
  ClassifyFile ["b"; "z.c"] false
    ∈ st_trace (backup_directory init [] two_directories 0 initial).
Proof.
  assert (H : Copy2 ["b"; "z.c"]
                ∈ st_trace (backup_directory init [] two_directories 0 initial)).
  { apply list_elem_of_In. vm_compute.
    repeat first [left; reflexivity | right]. }
  split; [exact H |].
  apply (copies_only_after_keep_decision init [] two_directories 0 ["b"; "z.c"]).
  left. exact H.
Defined.

(** ** What a traversal does is independent of what came before *)

Lemma combine_initial (st : state) : combine st initial = st.
Proof.
  destruct st as [[c s e z] t]. unfold combine, add_stats. simpl.
  rewrite app_nil_r, !Z.add_0_r. reflexivity.
Qed.

Lemma framed_emit (e : event) : framed (emit e).
Proof.
  intros st later. unfold emit, combine. simpl.
  rewrite app_assoc. reflexivity.
Qed.

Lemma framed_counter (f : stats -> stats) :
  (forall a b, f (add_stats a b) = add_stats a (f b)) ->
  framed (with_stats f).
Proof.
  intros Hf st later. unfold with_stats, combine. simpl.
  rewrite Hf. reflexivity.
Qed.

Lemma framed_count_copied : framed count_copied.
Proof.
  apply framed_counter. intros a b. unfold add_stats. simpl. f_equal. lia.
Qed.

Lemma framed_count_skipped : framed count_skipped.
Proof.
  apply framed_counter. intros a b. unfold add_stats. simpl. f_equal. lia.
Qed.

Lemma framed_count_error : framed count_error.
Proof.
  apply framed_counter. intros a b. unfold add_stats. simpl. f_equal. lia.
Qed.

Lemma framed_add_size (n : Z) : framed (add_size n).
Proof.
  apply framed_counter. intros a b. unfold add_stats. simpl. f_equal. lia.
Qed.

(** Pushes the steps of the loop through [combine], outermost first. *)
Ltac through_combine :=
  unfold log;
  repeat first [ rewrite framed_emit | rewrite framed_count_copied
               | rewrite framed_count_skipped | rewrite framed_count_error
               | rewrite framed_add_size ];
  try reflexivity.

Lemma framed_backup_file self item pats size copy :
  framed (backup_file self item pats size copy).
Proof.
  intros st later. unfold backup_file.
  destruct (should_skip_file self item pats); simpl negb; cbv iota zeta.
  - through_combine.
  - destruct copy; unfold copy_file_safely; cbn [snd]; through_combine.
Qed.

Lemma framed_backup_leaf self src_dir pats item :
  framed (backup_leaf self src_dir pats item).
Proof.
  intros st later.
  destruct item as [nm size copy | nm g l es | nm [size copy| | |] | nm | nm [|]];
    unfold backup_leaf; try reflexivity;
    try apply framed_backup_file; through_combine.
Qed.

Lemma framed_load_gitignore (directory : path) (gitignore : gitignore_file) :
  framed (fun st => snd (load_gitignore_patterns directory gitignore st)).
Proof.
  intros st later. destruct gitignore; unfold load_gitignore_patterns;
    cbn [snd]; through_combine.
Qed.

Lemma framed_backup_directory (self : MigrationPrep) (node : entry) :
  forall (src_dir : path) (level : Z),
    framed (backup_directory self src_dir node level).
Proof.
  induction node as [nm size copy | nm g l es IH | nm target | nm | nm err]
    using entry_ind;
    intros src_dir level st later; rewrite !backup_directory_unfold;
    destruct (10 <? level); try (through_combine; fail).
  cbv zeta.
  rewrite (loaded_patterns src_dir g (combine st later)),
          (loaded_patterns src_dir g later).
  pose proof (framed_load_gitignore src_dir g st later) as Hload.
  cbv beta in Hload. rewrite Hload.
  destruct (fst (load_gitignore_patterns src_dir g initial)) as [pats|];
    [| through_combine].
  destruct l; [| through_combine].
  rewrite framed_emit.
  generalize (emit (Iterdir src_dir)
                (snd (load_gitignore_patterns src_dir g later))) as x.
  clear Hload later. revert pats.
  induction IH as [|item rest Hitem _ IHrest]; intros pats x; [reflexivity |].
  rewrite !backup_items_cons.
  assert (Hstep : backup_item self src_dir pats level item (combine st x) =
                  combine st (backup_item self src_dir pats level item x)).
  { destruct item as [nm' size copy | nm' g' l' es' | nm' target | nm' | nm' err];
      try apply framed_backup_leaf.
    unfold backup_item.
    destruct (should_skip_directory self (src_dir ++ [nm'])); simpl negb;
      cbv iota zeta.
    - through_combine.
    - rewrite framed_emit. apply Hitem. }
  rewrite Hstep. apply IHrest.
Qed.

(** X8. A traversal started in any state ends in that state followed by
    what the same traversal counts and does from scratch: which entries are
    copied, skipped or in error never depends on the counters or on
    anything done before, and the counters of the parts add up. *)
Theorem backup_directory_adds_its_own_effect (self : MigrationPrep)
    (src_dir : path) (node : entry) (level : Z) (st : state) :
  backup_directory self src_dir node level st =
  combine st (backup_directory self src_dir node level initial).
Proof.
  rewrite <- (combine_initial st) at 1. apply framed_backup_directory.
Qed.

(** ** [run_backup] and [main] *)

Lemma elem_of_snoc (trace : list event) (e : event) : e ∈ trace ++ [e].
Proof. apply elem_of_app. right. left. Qed.

Lemma elem_of_before (trace : list event) (e e' : event) :
  e ∈ trace -> e ∈ trace ++ [e'].
Proof. intros H. apply elem_of_app. left. exact H. Qed.

(** X9. A run that reaches the summary returns 0, and the three counts it
    logs are the numbers of events of the whole run: copies that returned,
    skip decisions, and error records of the traversal.  Failing entries, and a
    backup info file that cannot be written, change neither the exit status
    nor this agreement. *)
Theorem summary_reports_the_run (verbose info_ok : bool) (root : entry) :
  let result := main false verbose (Some root) true info_ok in
  let trace := st_trace (snd result) in
  fst result = 0 /\
  Log INFO (FilesCopied (count written trace)) ∈ trace /\
  Log INFO (FilesSkipped (count skip_decision trace)) ∈ trace /\
  Log INFO (Errors (count error_record trace)) ∈ trace.
Proof.
  unfold main, run_backup. cbn [negb].
  set (st1 := backup_directory init [] root 0 (log INFO StartingBackup initial)).
  assert (H1 : counters_match_trace st1).
  { apply counters_match_trace_kept. repeat split. }
  set (st2 := create_backup_info info_ok st1).
  assert (H2 : counters_match_trace st2).
  { subst st2. destruct info_ok; [exact H1 |].
    unfold counters_match_trace in *. simpl. rewrite !count_snoc. simpl.
    intuition lia. }
  destruct H2 as (Hc & Hs & He).
  cbn [fst snd]. unfold log, emit. cbn [st_stats st_trace].
  rewrite !count_snoc. cbn [written skip_decision error_record].
  rewrite !Z.add_0_r, <- Hc, <- Hs, <- He.
  split; [reflexivity |].
  repeat split;
    repeat first [apply elem_of_snoc | apply elem_of_before].
Qed.

(** X10. Outside dry-run mode, a source that does not exist, or a backup
    root that cannot be created, ends the run at once: [main] logs the start
    and the failure, returns 1, and has counted and copied nothing. *)
Theorem fatal_errors_exit_one (verbose : bool) (source : option entry)
    (mkdir_ok info_ok : bool) :
  source = None \/ mkdir_ok = false ->
  main false verbose source mkdir_ok info_ok =
  (1, {| st_stats := no_stats;
         st_trace := [Log INFO StartingBackup; Log ERROR BackupFailed] |}).
Proof.
  intros [-> | ->]; [reflexivity |]. destruct source; reflexivity.
Qed.

Lemma fatal_errors_exit_one_witness :
  main false true None true true =
  (1, {| st_stats := no_stats;
         st_trace := [Log INFO StartingBackup; Log ERROR BackupFailed] |}) /\
  main false false (Some two_directories) false true =
  (1, {| st_stats := no_stats;
         st_trace := [Log INFO StartingBackup; Log ERROR BackupFailed] |}).
Proof.
  split.
  - apply fatal_errors_exit_one. left. reflexivity.
  - apply fatal_errors_exit_one. right. reflexivity.
Defined.

(** ** What reaches the destination *)

Lemma entry_at_snoc (root : entry) (d : path) nm g l (es : list entry)
    (item : entry) :
  entry_at root d (Directory nm g l es) ->
  In item es ->
  entry_at root (d ++ [entry_name item]) item.
Proof.
  intros Hat Hin. remember (Directory nm g l es) as dir eqn:Hdir.
  induction Hat as [node | nm0 g0 l0 es0 item0 p found Hin0 Hat IH].
  - subst node. apply (at_child nm g l es item [] item Hin). constructor.
  - simpl. apply at_child; [exact Hin0 | apply IH, Hdir].
Qed.

(** The event creates nothing in the destination. *)
Ltac creates_nothing := intros ? [? | ?]; discriminate.

Lemma copies_from_backup_file (root : entry) self item_path pats size copy
    (item : entry) :
  entry_at root item_path item ->
  (exists nm, item = File nm size copy \/ item = Symlink nm (ToFile size copy)) ->
  preserves (copies_from root) (backup_file self item_path pats size copy).
Proof.
  intros Hat (nm & Hitem) st Hst. unfold backup_file.
  destruct (should_skip_file self item_path pats);
    [added_events; creates_nothing |].
  assert (Hcopy : copy <> CopyFails ->
                  copies_from root (Copy2 item_path) /\
                  copies_from root (PartialCopy item_path)).
  { intros Hc. split; intros p [Hp | Hp]; inversion Hp; subst p;
      (exists item; split; [exact Hat |]);
      exists nm, size, copy; split; assumption. }
  destruct copy; added_events;
    try (apply Hcopy; discriminate); creates_nothing.
Qed.

Lemma copies_from_backup_leaf (root : entry) self src_dir pats (item : entry) :
  entry_at root (src_dir ++ [entry_name item]) item ->
  preserves (copies_from root) (backup_leaf self src_dir pats item).
Proof.
  intros Hat.
  destruct item as [nm size copy | nm g l es | nm [size copy| | |] | nm | nm [|]];
    intros st Hst; unfold backup_leaf; try exact Hst.
  - apply (copies_from_backup_file root self _ pats size copy _ Hat);
      [exists nm; left; reflexivity | exact Hst].
  - apply (copies_from_backup_file root self _ pats size copy _ Hat);
      [exists nm; right; reflexivity | exact Hst].
  - added_events. creates_nothing.
  - added_events. creates_nothing.
Qed.

Lemma copies_from_backup_directory (root : entry) (self : MigrationPrep)
    (node : entry) :
  forall (src_dir : path) (level : Z),
    entry_at root src_dir node ->
    preserves (copies_from root) (backup_directory self src_dir node level).
Proof.
  induction node as [nm size copy | nm g l es IH | nm target | nm | nm err]
    using entry_ind;
    intros src_dir level Hat st Hst; rewrite backup_directory_unfold;
    destruct (10 <? level);
    try (added_events; creates_nothing).
  cbv zeta.
  assert (Hloaded : Forall (copies_from root)
            (st_trace (snd (load_gitignore_patterns src_dir g st))))
    by (destruct g; added_events; creates_nothing).
  destruct (fst (load_gitignore_patterns src_dir g st)) as [pats|];
    [| added_events; creates_nothing].
  destruct l; [| added_events; creates_nothing].
  assert (Hlisted : Forall (copies_from root)
            (st_trace (emit (Iterdir src_dir)
                         (snd (load_gitignore_patterns src_dir g st)))))
    by (added_events; creates_nothing).
  assert (Hin : forall item, In item es ->
                  entry_at root (src_dir ++ [entry_name item]) item)
    by (intros item; apply (entry_at_snoc root src_dir nm g true es item Hat)).
  generalize dependent (emit (Iterdir src_dir)
                          (snd (load_gitignore_patterns src_dir g st))).
  clear st Hst Hat Hloaded. revert pats.
  induction IH as [|item rest Hitem _ IHrest]; intros pats st Hst;
    [exact Hst |].
  rewrite backup_items_cons.
  apply IHrest; [intros i Hi; apply Hin; right; exact Hi |].
  pose proof (Hin item (or_introl eq_refl)) as Hat.
  destruct item as [nm' size copy | nm' g' l' es' | nm' target | nm' | nm' err];
    try (apply copies_from_backup_leaf; [exact Hat | exact Hst]).
  unfold backup_item.
  destruct (should_skip_directory self (src_dir ++ [nm'])); simpl negb; cbv iota.
  - added_events; creates_nothing.
  - apply Hitem; [exact Hat |]. added_events. creates_nothing.
Qed.

(** X11. Only what is in the source reaches the destination: every file
    that a run creates in the destination, whether [shutil.copy2] returned
    or raised after creating it, lies at the same relative path in the
    source tree and is there a regular file or a symbolic link to one.
    No file is created for a directory, a link to a directory, a dangling
    link or a special file. *)
Theorem only_source_files_are_copied (self : MigrationPrep) (root : entry)
    (p : path) :
  let trace := st_trace (backup_directory self [] root 0 initial) in
  Copy2 p ∈ trace \/ PartialCopy p ∈ trace ->
  exists item, entry_at root p item /\ copyable item.
Proof.
  intros trace Hin.
  pose proof (copies_from_backup_directory root self root [] 0 (at_root root)
                initial (List.Forall_nil _)) as Hall.
  rewrite Forall_forall in Hall.
  destruct Hin as [Hin | Hin].
  - exact (Hall _ Hin p (or_introl eq_refl)).
  - exact (Hall _ Hin p (or_intror eq_refl)).
Qed.

(** A source root with a file whose copy raises once the destination file
    is there. *)
Lemma only_source_files_are_copied_witness :
  PartialCopy ["big.iso.part"]
    ∈ st_trace (backup_directory init []
                  (Directory "" NoGitignore true
                     [File "big.iso.part" 700 PartialCopyFails]) 0 initial) /\
  exists item,
    entry_at (Directory "" NoGitignore true
                [File "big.iso.part" 700 PartialCopyFails])
      ["big.iso.part"] item /\
    copyable item.
Proof.
  assert (H : PartialCopy ["big.iso.part"]
                ∈ st_trace (backup_directory init []
                              (Directory "" NoGitignore true
                                 [File "big.iso.part" 700 PartialCopyFails])
                              0 initial)).
  { apply list_elem_of_In. vm_compute.
    repeat first [left; reflexivity | right]. }
  split; [exact H |].
  apply (only_source_files_are_copied init _ ["big.iso.part"]).
  right. exact H.
Defined.

(** ** Which directories are opened *)

Lemma opened_were_kept_with_stats top (f : stats -> stats) (st : state) :
  opened_were_kept top st -> opened_were_kept top (with_stats f st).
Proof. intros H. exact H. Qed.

Lemma opened_were_kept_emit top (e : event) (st : state) :
  (forall d, e = Iterdir d \/ e = LoadGitignore d ->
             d = top \/ ClassifyDirectory d false ∈ st_trace st) ->
  opened_were_kept top st -> opened_were_kept top (emit e st).
Proof.
  intros He H d Hd. simpl in *.
  rewrite !elem_of_app, !list_elem_of_singleton in Hd.
  assert (Hold : d = top \/ ClassifyDirectory d false ∈ st_trace st).
  { destruct Hd as [[Hd | Hd] | [Hd | Hd]].
    - apply H. left. exact Hd.
    - apply He. left. symmetry. exact Hd.
    - apply H. right. exact Hd.
    - apply He. right. symmetry. exact Hd. }
  destruct Hold as [Hold | Hold]; [left; exact Hold | right].
  apply elem_of_before, Hold.
Qed.

(** An event that opens nothing. *)
Ltac opens_nothing :=
  apply opened_were_kept_emit; [intros ? [? | ?]; discriminate |].

Lemma opened_were_kept_backup_leaf top self src_dir pats item (st : state) :
  opened_were_kept top st ->
  opened_were_kept top (backup_leaf self src_dir pats item st).
Proof.
  intros H.
  destruct item as [nm size copy | nm g l es | nm [size copy| | |] | nm | nm [|]];
    unfold backup_leaf, backup_file; try exact H;
    try (destruct (should_skip_file self _ pats); simpl negb; cbv iota zeta;
         [| destruct copy; unfold copy_file_safely; cbn [snd]]);
    unfold log, count_copied, count_skipped, count_error, add_size;
    repeat first [apply opened_were_kept_with_stats | opens_nothing];
    exact H.
Qed.

Lemma opened_were_kept_backup_directory (top : path) (self : MigrationPrep)
    (node : entry) :
  forall (src_dir : path) (level : Z) (st : state),
    src_dir = top \/ ClassifyDirectory src_dir false ∈ st_trace st ->
    opened_were_kept top st ->
    opened_were_kept top (backup_directory self src_dir node level st).
Proof.
  induction node as [nm size copy | nm g l es IH | nm target | nm | nm err]
    using entry_ind;
    intros src_dir level st Hpre Hst; rewrite backup_directory_unfold;
    destruct (10 <? level); try (unfold log; opens_nothing; exact Hst);
    assert (Hopen : opened_were_kept top
              (emit (Iterdir src_dir) (emit (LoadGitignore src_dir) st)))
      by (apply opened_were_kept_emit;
          [intros d [Hd | Hd]; inversion Hd; subst;
           destruct Hpre as [Hpre | Hpre];
           [left; exact Hpre | right; apply elem_of_before, Hpre]
          | apply opened_were_kept_emit; [| exact Hst];
            intros d [Hd | Hd]; inversion Hd; subst; exact Hpre]);
    try (unfold count_error, log; apply opened_were_kept_with_stats;
         opens_nothing; exact Hopen).
  cbv zeta.
  assert (Hpre' : src_dir = top \/
                  ClassifyDirectory src_dir false
                    ∈ st_trace (snd (load_gitignore_patterns src_dir g st))).
  { destruct Hpre as [Hpre | Hpre]; [left; exact Hpre | right].
    destruct g; simpl; repeat apply elem_of_before; exact Hpre. }
  assert (Hsnd : opened_were_kept top
                   (snd (load_gitignore_patterns src_dir g st))).
  { assert (H1 : opened_were_kept top (emit (LoadGitignore src_dir) st))
      by (apply opened_were_kept_emit; [| exact Hst];
          intros d [Hd | Hd]; inversion Hd; subst; exact Hpre).
    destruct g; try exact H1.
    unfold load_gitignore_patterns, log. cbn [snd]. opens_nothing. exact H1. }
  destruct (fst (load_gitignore_patterns src_dir g st)) as [pats|];
    [| unfold count_error, log; apply opened_were_kept_with_stats;
       opens_nothing; exact Hsnd].
  assert (Hloaded : opened_were_kept top
            (emit (Iterdir src_dir) (snd (load_gitignore_patterns src_dir g st))))
    by (apply opened_were_kept_emit; [| exact Hsnd];
        intros d [Hd | Hd]; inversion Hd; subst; exact Hpre').
  destruct l;
    [| unfold count_error, log; apply opened_were_kept_with_stats;
       opens_nothing; exact Hloaded].
  generalize dependent (emit (Iterdir src_dir)
                          (snd (load_gitignore_patterns src_dir g st))).
  clear st Hst Hpre Hopen Hpre' Hsnd. revert pats.
  induction IH as [|item rest Hitem _ IHrest]; intros pats st Hst;
    [exact Hst |].
  rewrite backup_items_cons. apply IHrest.
  destruct item as [nm' size copy | nm' g' l' es' | nm' target | nm' | nm' err];
    try (apply opened_were_kept_backup_leaf; exact Hst).
  unfold backup_item.
  destruct (should_skip_directory self (src_dir ++ [nm'])); simpl negb;
    cbv iota zeta.
  - unfold count_skipped, log. apply opened_were_kept_with_stats.
    repeat opens_nothing. exact Hst.
  - apply Hitem.
    + right. apply elem_of_snoc.
    + opens_nothing. exact Hst.
Qed.

(** X12. No directory is opened without a keep decision: apart from the
    source root, every directory whose [.gitignore] a run looks for, or whose
    entries it lists, was classified by [should_skip_directory] as kept in
    that run. *)
Theorem opened_directories_were_kept (self : MigrationPrep) (root : entry)
    (d : path) :
  let trace := st_trace (backup_directory self [] root 0 initial) in
  Iterdir d ∈ trace \/ LoadGitignore d ∈ trace ->
  d = [] \/ ClassifyDirectory d false ∈ trace.
Proof.
  revert d.
  apply (opened_were_kept_backup_directory [] self root [] 0 initial).
  - left. reflexivity.
  - intros d [Hd | Hd]; inversion Hd.
Qed.

Lemma opened_directories_were_kept_witness :
  Iterdir ["a"; "sub"]
    ∈ st_trace (backup_directory init [] two_directories 0 initial) /\
  (["a"; "sub"] = [] \/
   ClassifyDirectory ["a"; "sub"] false
     ∈ st_trace (backup_directory init [] two_directories 0 initial)).
Proof.
  assert (H : Iterdir ["a"; "sub"]
                ∈ st_trace (backup_directory init [] two_directories 0 initial)).
  { apply list_elem_of_In. vm_compute.
    repeat first [left; reflexivity | right]. }
  split; [exact H |].
  apply (opened_directories_were_kept init two_directories ["a"; "sub"]).
  left. exact H.
Defined.

(** ** Runs in which nothing fails, and trees that are not deep *)

Lemma failure_free_leaf self src_dir pats item (st : state) :
  failure_free item ->
  is_directory item = false ->
  errors (st_stats (backup_leaf self src_dir pats item st)) =
  errors (st_stats st).
Proof.
  intros Hw Hdir.
  destruct item as [nm size copy | nm g l es | nm [size copy| | |] | nm | nm err];
    simpl in Hw; try discriminate Hdir; try contradiction; try reflexivity;
    subst copy; unfold backup_leaf, backup_file;
    destruct (should_skip_file self _ pats); reflexivity.
Qed.

Lemma failure_free_directory (self : MigrationPrep) (node : entry) :
  every_entry failure_free node ->
  is_directory node = true ->
  forall (src_dir : path) (level : Z) (st : state),
    errors (st_stats (backup_directory self src_dir node level st)) =
    errors (st_stats st).
Proof.
  induction node as [nm size copy | nm g l es IH | nm target | nm | nm err]
    using entry_ind; intros Hw Hdir; try discriminate Hdir.
  intros src_dir level st. rewrite backup_directory_unfold.
  destruct (10 <? level); [reflexivity |]. cbv zeta.
  apply every_entry_directory in Hw as [[Hl Hg] Hw]. subst l.
  destruct (reachable_loads src_dir g st Hg) as (pats & ->).
  assert (Hloaded : errors (st_stats (emit (Iterdir src_dir)
                      (snd (load_gitignore_patterns src_dir g st)))) =
                    errors (st_stats st))
    by (destruct g; reflexivity).
  rewrite <- Hloaded.
  generalize (emit (Iterdir src_dir)
                (snd (load_gitignore_patterns src_dir g st))) as st'.
  clear Hloaded st Hdir. revert pats.
  induction IH as [|item rest Hitem _ IHrest]; intros pats st; [reflexivity |].
  apply Forall_cons in Hw as [Hw_item Hw_rest].
  rewrite backup_items_cons, (IHrest Hw_rest).
  destruct (is_directory item) eqn:Hd.
  - destruct item as [nm' size copy | nm' g' l' es' | nm' target | nm' | nm' err];
      try discriminate Hd.
    unfold backup_item.
    destruct (should_skip_directory self (src_dir ++ [nm'])); simpl negb;
      cbv iota zeta; [reflexivity |].
    rewrite (Hitem Hw_item eq_refl). reflexivity.
  - assert (Hleaf : backup_item self src_dir pats level item st =
                    backup_leaf self src_dir pats item st)
      by (destruct item; try reflexivity; discriminate Hd).
    rewrite Hleaf. apply failure_free_leaf; [| exact Hd].
    destruct item; apply Hw_item.
Qed.

(** X13. When every directory of the source can be searched and listed,
    every entry can be looked at and every copy succeeds, a run counts no
    error, whatever the [.gitignore] files hold (one whose read fails
    included) and however deep the tree is. *)
Theorem no_failure_no_error (self : MigrationPrep) (root : entry) :
  is_directory root = true ->
  every_entry failure_free root ->
  errors (st_stats (backup_directory self [] root 0 initial)) = 0.
Proof.
  intros Hdir Hw.
  rewrite (failure_free_directory self root Hw Hdir). reflexivity.
Qed.

Lemma no_failure_no_error_witness :
  is_directory deep_tree = true /\
  every_entry failure_free deep_tree /\
  errors (st_stats (backup_directory init [] deep_tree 0 initial)) = 0.
Proof.
  assert (Hw : every_entry failure_free deep_tree)
    by (vm_compute; intuition reflexivity).
  split; [reflexivity |]. split; [exact Hw |].
  exact (no_failure_no_error init deep_tree eq_refl Hw).
Defined.

Lemma depth_below_directory nm g l (es : list entry) :
  Forall (fun item => is_directory item = true ->
                      1 + depth_below item <= depth_below (Directory nm g l es))
    es /\
  0 <= depth_below (Directory nm g l es).
Proof.
  simpl. induction es as [|item rest [IH Hpos]]; [split; [constructor | lia] |].
  split; [| lia].
  constructor.
  - intros Hd. destruct item; try discriminate Hd. lia.
  - eapply Forall_impl; [exact IH |]. simpl. intros x Hx Hd.
    specialize (Hx Hd). lia.
Qed.

Lemma no_ceiling_warning_leaf self src_dir pats item :
  preserves no_ceiling_warning (backup_leaf self src_dir pats item).
Proof.
  intros st Hst.
  destruct item as [nm size copy | nm g l es | nm [size copy| | |] | nm | nm [|]];
    unfold backup_leaf, backup_file; try exact Hst;
    try (destruct (should_skip_file self _ pats); [| destruct copy]);
    added_events; intros lvl d Hd; discriminate.
Qed.

Lemma shallow_directory_never_warns (self : MigrationPrep) (node : entry) :
  forall (src_dir : path) (level : Z),
    level + depth_below node <= 10 ->
    preserves no_ceiling_warning (backup_directory self src_dir node level).
Proof.
  induction node as [nm size copy | nm g l es IH | nm target | nm | nm err]
    using entry_ind;
    intros src_dir level Hdepth st Hst; rewrite backup_directory_unfold;
    try (simpl in Hdepth;
         destruct (10 <? level) eqn:Hl; [apply Z.ltb_lt in Hl; lia |];
         added_events; intros lvl d Hd; discriminate).
  destruct (depth_below_directory nm g l es) as [Hes Hpos].
  destruct (10 <? level) eqn:Hl; [apply Z.ltb_lt in Hl; lia |].
  cbv zeta.
  assert (Hloaded : Forall no_ceiling_warning
            (st_trace (emit (Iterdir src_dir)
                         (snd (load_gitignore_patterns src_dir g st)))))
    by (destruct g; added_events; intros lvl d Hd; discriminate).
  destruct (fst (load_gitignore_patterns src_dir g st)) as [pats|];
    [| destruct g; added_events; intros lvl d Hd; discriminate].
  destruct l; [| added_events; intros lvl d Hd; discriminate].
  generalize dependent (emit (Iterdir src_dir)
                          (snd (load_gitignore_patterns src_dir g st))).
  clear st Hst. revert pats.
  remember (depth_below (Directory nm g true es)) as deepest eqn:Hdeepest.
  clear Hdeepest Hpos.
  induction IH as [|item rest Hitem _ IHrest]; intros pats st Hst;
    [exact Hst |].
  apply Forall_cons in Hes as [Hes_item Hes_rest].
  rewrite backup_items_cons. apply (IHrest Hes_rest).
  destruct item as [nm' size copy | nm' g' l' es' | nm' target | nm' | nm' err];
    try (apply no_ceiling_warning_leaf; exact Hst).
  unfold backup_item.
  destruct (should_skip_directory self (src_dir ++ [nm'])); simpl negb;
    cbv iota zeta.
  - added_events; intros lvl d Hd; discriminate.
  - apply Hitem.
    + specialize (Hes_item eq_refl). lia.
    + added_events. intros lvl d Hd; discriminate.
Qed.

(** X14. The depth ceiling is silent on a source with at most ten levels of
    directories below the root: the run never logs the warning of the
    ceiling, so every kept directory is opened. *)
Theorem shallow_tree_never_hits_the_ceiling (self : MigrationPrep)
    (root : entry) (lvl : severity) (d : path) :
  depth_below root <= 10 ->
  Log lvl (MaximumRecursionDepth d)
    ∉ st_trace (backup_directory self [] root 0 initial).
Proof.
  intros Hdepth Hin.
  pose proof (shallow_directory_never_warns self root [] 0 ltac:(lia)
                initial (List.Forall_nil _)) as Hall.
  rewrite Forall_forall in Hall. exact (Hall _ Hin lvl d eq_refl).
Qed.

Lemma shallow_tree_never_hits_the_ceiling_witness :
  depth_below two_directories <= 10 /\
  Log WARNING (MaximumRecursionDepth ["a"; "sub"])
    ∉ st_trace (backup_directory init [] two_directories 0 initial).
Proof.
  assert (H : depth_below two_directories <= 10) by (vm_compute; discriminate).
  split; [exact H |].
  exact (shallow_tree_never_hits_the_ceiling init two_directories WARNING
           ["a"; "sub"] H).
Defined.

(** ** Literal entries and extension entries of the rule lists *)

Lemma translate_plain (cs : list ascii) :
  forall fuel, (length cs <= fuel)%nat -> forallb plain cs = true ->
               Fnmatch.translate fuel cs = map Fnmatch.Lit cs.
Proof.
  induction cs as [|c cs IH]; intros fuel Hfuel Hplain.
  - destruct fuel; reflexivity.
  - destruct fuel as [|fuel]; [simpl in Hfuel; lia |].
    simpl in Hplain. apply andb_true_iff in Hplain as [Hc Hcs].
    unfold plain in Hc. apply negb_true_iff in Hc.
    apply orb_false_iff in Hc as [Hc Hbracket].
    apply orb_false_iff in Hc as [Hstar Hany].
    simpl. unfold Fnmatch.same. rewrite Hstar, Hany, Hbracket.
    rewrite IH; [reflexivity | simpl in Hfuel; lia | exact Hcs].
Qed.

Lemma matches_literal (cs s : list ascii) :
  Fnmatch.matches (map Fnmatch.Lit cs) s = true <-> s = cs.
Proof.
  revert s. induction cs as [|c cs IH]; intros s; simpl.
  - destruct s; split; congruence.
  - destruct s as [|d s]; [split; discriminate |].
    rewrite andb_true_iff, IH. unfold Fnmatch.same. rewrite Ascii.eqb_eq.
    split; [intros [-> ->]; reflexivity | intros H; inversion H; auto].
Qed.

Lemma matches_star_literal (cs s : list ascii) :
  Fnmatch.matches (Fnmatch.Star :: map Fnmatch.Lit cs) s = true <->
  exists stem, s = stem ++ cs.
Proof.
  simpl. induction s as [|d s IH].
  - rewrite orb_false_r, matches_literal. split.
    + intros H. exists []. exact H.
    + intros (stem & H). destruct stem; [exact H | discriminate].
  - rewrite orb_true_iff, matches_literal, IH. split.
    + intros [H | (stem & H)]; [exists []; exact H |].
      exists (d :: stem). rewrite H. reflexivity.
    + intros (stem & H). destruct stem as [|x stem]; [left; exact H |].
      right. exists stem. inversion H. reflexivity.
Qed.

Lemma list_ascii_of_append (a b : string) :
  list_ascii_of_string (String.append a b) =
  list_ascii_of_string a ++ list_ascii_of_string b.
Proof.
  induction a as [|c a IH]; [reflexivity |].
  change (c :: list_ascii_of_string (String.append a b) =
          c :: (list_ascii_of_string a ++ list_ascii_of_string b)).
  rewrite IH. reflexivity.
Qed.

Lemma list_ascii_inj (a b : string) :
  list_ascii_of_string a = list_ascii_of_string b -> a = b.
Proof.
  intros H. rewrite <- (string_of_list_ascii_of_string a),
                    <- (string_of_list_ascii_of_string b), H.
  reflexivity.
Qed.

(** X15. A rule entry with no wildcard in it matches the names equal to it
    and no other: [fnmatch] with such a pattern is string equality. *)
Theorem literal_pattern_is_equality (filename pattern : string) :
  wildcard_free pattern = true ->
  (fnmatch filename pattern = true <-> filename = pattern).
Proof.
  intros Hplain. unfold fnmatch, Fnmatch.fnmatch. cbv zeta.
  rewrite translate_plain; [| lia | exact Hplain].
  rewrite matches_literal. split; [apply list_ascii_inj | intros ->; reflexivity].
Qed.

(** The keep pattern [.ssh/config] is tried on bare file names: it matches
    a file called [.ssh/config] and not the file [config]. *)
Lemma literal_pattern_is_equality_witness :
  wildcard_free ".ssh/config" = true /\
  (fnmatch (name [".ssh"; "config"]) ".ssh/config" = true <->
   name [".ssh"; "config"] = ".ssh/config").
Proof.
  split; [reflexivity |].
  apply literal_pattern_is_equality. reflexivity.
Defined.

Lemma fnmatch_extension (filename suffix : string) :
  wildcard_free suffix = true ->
  (fnmatch filename (String "*" suffix) = true <->
   exists stem, filename = String.append stem suffix).
Proof.
  intros Hplain. unfold fnmatch, Fnmatch.fnmatch. cbv zeta.
  assert (Ht : Fnmatch.translate
                 (length (list_ascii_of_string (String "*" suffix)))
                 (list_ascii_of_string (String "*" suffix)) =
               Fnmatch.Star :: map Fnmatch.Lit (list_ascii_of_string suffix)).
  { simpl. rewrite translate_plain; [| lia | exact Hplain].
    unfold wildcard_free in Hplain.
    destruct (list_ascii_of_string suffix) as [|c cs]; reflexivity. }
  rewrite Ht, matches_star_literal. split.
  - intros (stem & H). exists (string_of_list_ascii stem).
    apply list_ascii_inj.
    rewrite list_ascii_of_append, list_ascii_of_string_of_list_ascii. exact H.
  - intros (stem & ->). exists (list_ascii_of_string stem).
    apply list_ascii_of_append.
Qed.

(** X16. With a keep pattern made of a star and a wildcard-free ending in
    the rule set, every file whose name has that ending is kept, whatever
    the active gitignore set and the skip patterns say. *)
Theorem kept_extension_is_always_kept (self : MigrationPrep) (file_path : path)
    (gitignore_patterns : gset string) (stem suffix : string) :
  String "*" suffix ∈ keep_patterns self ->
  wildcard_free suffix = true ->
  name file_path = String.append stem suffix ->
  should_skip_file self file_path gitignore_patterns = false.
Proof.
  intros Hin Hplain Hname. unfold should_skip_file.
  assert (Hk : matches_any (name file_path) (keep_patterns self) = true).
  { apply matches_any_true. exists (String "*" suffix). split; [exact Hin |].
    apply fnmatch_extension; [exact Hplain |]. exists stem. exact Hname. }
  rewrite Hk. reflexivity.
Qed.

(** A Markdown file listed in the [.gitignore] of its directory. *)
Lemma kept_extension_is_always_kept_witness :
  should_skip_file init ["docs"; "draft.md"] {[ "draft.md"; "docs/*" ]} = false.
Proof.
  apply (kept_extension_is_always_kept init ["docs"; "draft.md"] _ "draft" ".md").
  - apply list_elem_of_In. vm_compute. tauto.
  - reflexivity.
  - reflexivity.
Defined.

(** X17. The skip patterns, written for file names, prune directories as
    well: a directory whose name ends like a star-and-ending skip pattern is
    skipped, unless a keep-dotfile entry applies to it. *)
Theorem skip_extension_prunes_directories (self : MigrationPrep)
    (dir_path : path) (stem suffix : string) :
  ~ keep_dotfile_applies self dir_path ->
  String "*" suffix ∈ skip_patterns self ->
  wildcard_free suffix = true ->
  name dir_path = String.append stem suffix ->
  should_skip_directory self dir_path = true.
Proof.
  intros Hk Hin Hplain Hname.
  destruct (should_skip_directory_cases self dir_path) as (_ & H2 & H3).
  destruct (decide (name dir_path ∈ skip_dirs self)) as [Hd | Hd];
    [apply H2; assumption |].
  rewrite (H3 Hk Hd). apply matches_any_true.
  exists (String "*" suffix). split; [exact Hin |].
  apply fnmatch_extension; [exact Hplain |]. exists stem. exact Hname.
Qed.

(** A directory of photographs called [holiday.zip]. *)
Lemma skip_extension_prunes_directories_witness :
  should_skip_directory init ["photos"; "holiday.zip"] = true.
Proof.
  apply (skip_extension_prunes_directories init ["photos"; "holiday.zip"]
           "holiday" ".zip").
  - apply not_keep_dotfile. vm_compute. reflexivity.
  - apply list_elem_of_In. vm_compute. tauto.
  - reflexivity.
  - reflexivity.
Defined.


(** ** A failing entry and the rest of the walk *)

Lemma framed_from_initial (f : state -> state) (st : state) :
  framed f -> f st = combine st (f initial).
Proof. intros Hf. rewrite <- (combine_initial st) at 1. apply Hf. Qed.

Lemma framed_backup_item self src_dir pats level item :
  framed (backup_item self src_dir pats level item).
Proof.
  intros st later.
  destruct item as [nm size copy | nm g l es | nm target | nm | nm err];
    try apply framed_backup_leaf.
  unfold backup_item.
  destruct (should_skip_directory self (src_dir ++ [nm])); simpl negb;
    cbv iota zeta.
  - through_combine.
  - rewrite framed_emit. apply framed_backup_directory.
Qed.

Lemma framed_backup_items self src_dir pats level (items : list entry) :
  framed (backup_items self src_dir pats level items).
Proof.
  induction items as [|item rest IH]; intros st later; [reflexivity |].
  rewrite !backup_items_cons, framed_backup_item. apply IH.
Qed.

Lemma add_stats_swap (a b c : stats) :
  add_stats (add_stats a b) c = add_stats (add_stats a c) b.
Proof. unfold add_stats. simpl. f_equal; lia. Qed.

Lemma inserted_here (extra st : state) : inserted extra (combine st extra) st.
Proof.
  split; [reflexivity |]. exists (st_trace st), [].
  split; [symmetry; apply app_nil_r |].
  simpl. rewrite app_nil_r. reflexivity.
Qed.

Lemma inserted_framed (f : state -> state) (extra st' st : state) :
  framed f -> inserted extra st' st -> inserted extra (f st') (f st).
Proof.
  intros Hf (Hstats & before & after & Ht & Ht').
  rewrite (framed_from_initial f st' Hf), (framed_from_initial f st Hf).
  split.
  - simpl. rewrite Hstats. apply add_stats_swap.
  - exists before, (after ++ st_trace (f initial)). simpl.
    rewrite Ht, Ht', <- !app_assoc. split; reflexivity.
Qed.

Lemma one_more_entry_directories self item src_dir level bigger smaller
    where_ pats :
  one_more_entry self item src_dir level bigger smaller where_ pats ->
  exists nm g es es',
    bigger = Directory nm g true es /\ smaller = Directory nm g true es'.
Proof. intros H. destruct H; eexists _, _, _, _; split; reflexivity. Qed.

(** Adding an entry that is not a directory to a directory that the
    traversal lists changes the run by what the loop body does for that
    entry, and by nothing else. *)
Lemma one_more_entry_inserted self item src_dir level bigger smaller
    where_ pats :
  is_directory item = false ->
  one_more_entry self item src_dir level bigger smaller where_ pats ->
  forall st,
    inserted (backup_leaf self where_ pats item initial)
      (backup_directory self src_dir bigger level st)
      (backup_directory self src_dir smaller level st).
Proof.
  intros Hitem H.
  induction H as [src_dir level nm g pats before after Hlevel Hload
                 | src_dir level nm g ppats before after bigger smaller
                     where_ pats Hlevel Hload Hkeep Hrel IH];
    intros st; rewrite !backup_directory_unfold;
    (destruct (10 <? level) eqn:Hl; [apply Z.ltb_lt in Hl; lia |]);
    cbv zeta; rewrite (loaded_patterns src_dir g st), Hload;
    rewrite !backup_items_app, !backup_items_cons;
    apply inserted_framed; try apply framed_backup_items.
  - assert (Hleaf : forall s, backup_item self src_dir pats level item s =
                              backup_leaf self src_dir pats item s)
      by (intros s; destruct item; try reflexivity; discriminate Hitem).
    rewrite Hleaf.
    generalize (backup_items self src_dir pats level before
                  (emit (Iterdir src_dir)
                     (snd (load_gitignore_patterns src_dir g st)))) as s.
    intros s.
    rewrite (framed_from_initial (backup_leaf self src_dir pats item) s
               (framed_backup_leaf self src_dir pats item)).
    apply inserted_here.
  - destruct (one_more_entry_directories _ _ _ _ _ _ _ _ Hrel)
      as (cnm & cg & ces & ces' & -> & ->).
    simpl entry_name in *. unfold backup_item. rewrite Hkeep.
    simpl negb. cbv iota zeta. apply IH.
Qed.

Lemma fails_effect self where_ pats item :
  fails self where_ pats item ->
  is_directory item = false /\
  let extra := backup_leaf self where_ pats item initial in
  errors (st_stats extra) = 1 /\
  skipped (st_stats extra) = 0 /\
  size_copied (st_stats extra) = 0 /\
  0 <= copied (st_stats extra) <= 1 /\
  exists lvl msg, Log lvl msg ∈ st_trace extra.
Proof.
  intros [(nm & err & ->) | (nm & size & copy & Hitem & Hcopy & Hkeep)].
  - split; [reflexivity |].
    destruct err; simpl; repeat split; try lia;
      eexists _, _; apply list_elem_of_In; simpl;
      repeat first [left; reflexivity | right].
  - assert (Hb : is_directory item = false /\
                 backup_leaf self where_ pats item initial =
                 backup_file self (where_ ++ [nm]) pats size copy initial)
      by (destruct Hitem as [-> | ->]; split; reflexivity).
    destruct Hb as [Hd ->]. split; [exact Hd |].
    unfold backup_file. rewrite Hkeep.
    destruct copy; [contradiction | | |]; simpl; repeat split; try lia;
      eexists _, _; apply list_elem_of_In; simpl;
      repeat first [left; reflexivity | right].
Qed.

(** C8. A failure on one entry is caught there and the walk goes on.  For
    the loop body: an entry whose type query raises adds one to [errors] and
    one log record and nothing else; a kept file (or link to a file) whose
    copy raises adds one to [errors] and is logged.  For the whole
    traversal: take any tree, and the same tree with a failing entry added
    to one of the directories that [backup_directory] lists; the two runs
    differ by one error counted (and by the copy, when it is the [stat]
    after the copy that raised), and the run with the failing entry does,
    in the same order, everything the other run does, for the entries
    before it, for its later siblings and for the rest of the tree, with
    the records of the failing entry put in at its place. *)
Theorem entry_errors_do_not_abort :
  (forall (self : MigrationPrep) (src_dir : path)
          (gitignore_patterns : gset string) (level : Z) (nm : string)
          (err : failure) (st : state),
     let st' := backup_item self src_dir gitignore_patterns level
                  (Unreadable nm err) st in
     st_stats st' =
       {| copied := copied (st_stats st);
          skipped := skipped (st_stats st);
          errors := errors (st_stats st) + 1;
          size_copied := size_copied (st_stats st) |} /\
     exists lvl msg, st_trace st' = st_trace st ++ [Log lvl msg]) /\
  (forall (self : MigrationPrep) (src_dir : path)
          (gitignore_patterns : gset string) (level : Z) (nm : string)
          (item : entry) (size : Z) (copy : copy_outcome) (st : state),
     item = File nm size copy \/ item = Symlink nm (ToFile size copy) ->
     copy <> CopyOk ->
     should_skip_file self (src_dir ++ [nm]) gitignore_patterns = false ->
     let st' := backup_item self src_dir gitignore_patterns level item st in
     errors (st_stats st') = errors (st_stats st) + 1 /\
     skipped (st_stats st') = skipped (st_stats st) /\
     size_copied (st_stats st') = size_copied (st_stats st) /\
     Log ERROR (FailedToCopy (src_dir ++ [nm])) ∈ st_trace st') /\
  (forall (self : MigrationPrep) (item : entry) (src_dir : path) (level : Z)
          (bigger smaller : entry) (where_ : path) (pats : gset string)
          (st : state),
     one_more_entry self item src_dir level bigger smaller where_ pats ->
     fails self where_ pats item ->
     let with_it := backup_directory self src_dir bigger level st in
     let without := backup_directory self src_dir smaller level st in
     errors (st_stats with_it) = errors (st_stats without) + 1 /\
     skipped (st_stats with_it) = skipped (st_stats without) /\
     size_copied (st_stats with_it) = size_copied (st_stats without) /\
     copied (st_stats without) <= copied (st_stats with_it)
       <= copied (st_stats without) + 1 /\
     exists before extra after,
       st_trace without = before ++ after /\
       st_trace with_it = before ++ extra ++ after /\
       exists lvl msg, Log lvl msg ∈ extra).
Proof.
  split; [| split].
  - intros self src_dir pats level nm err st st'. subst st'.
    destruct err; simpl; (split; [reflexivity | eexists _, _; reflexivity]).
  - intros self src_dir pats level nm item size copy st Hitem Hcopy Hkeep st'.
    subst st'.
    assert (Hb : backup_item self src_dir pats level item st =
                 backup_file self (src_dir ++ [nm]) pats size copy st)
      by (destruct Hitem as [-> | ->]; reflexivity).
    rewrite Hb. unfold backup_file. rewrite Hkeep. simpl.
    destruct copy; [contradiction | | |]; simpl;
      (repeat split; try reflexivity);
      apply elem_of_app; right; left.
  - intros self item src_dir level bigger smaller where_ pats st Hrel Hfails
           with_it without.
    destruct (fails_effect self where_ pats item Hfails)
      as (Hleaf & He & Hs & Hz & Hc & Hlog).
    destruct (one_more_entry_inserted self item src_dir level bigger smaller
                where_ pats Hleaf Hrel st)
      as (Hstats & before & after & Ht & Ht').
    fold with_it in Hstats, Ht'. fold without in Hstats, Ht.
    rewrite Hstats. simpl.
    repeat split; try lia.
    exists before, (st_trace (backup_leaf self where_ pats item initial)), after.
    repeat split; assumption.
Qed.

(** An entry that cannot be looked at, in the middle of a directory that
    lies between two files of the source root. *)
Lemma entry_errors_do_not_abort_witness :
  one_more_entry init (Unreadable "locked" PermissionError) [] 0
    locked_tree plain_tree ["sub"] ∅ /\
  fails init ["sub"] ∅ (Unreadable "locked" PermissionError) /\
  errors (st_stats (backup_directory init [] locked_tree 0 initial)) =
  errors (st_stats (backup_directory init [] plain_tree 0 initial)) + 1.
Proof.
  assert (Hrel : one_more_entry init (Unreadable "locked" PermissionError) [] 0
                   locked_tree plain_tree ["sub"] ∅).
  { apply (added_below init _ [] 0 "" NoGitignore ∅ [File "a.c" 1 CopyOk]
             [File "b.c" 8 CopyOk]
             (Directory "sub" NoGitignore true
                [ File "x.c" 2 CopyOk; Unreadable "locked" PermissionError;
                  File "y.c" 4 CopyOk ])
             (Directory "sub" NoGitignore true
                [File "x.c" 2 CopyOk; File "y.c" 4 CopyOk])
             ["sub"] ∅).
    - lia.
    - reflexivity.
    - vm_compute. reflexivity.
    - apply (added_here init _ ["sub"] 1 "sub" NoGitignore ∅
               [File "x.c" 2 CopyOk] [File "y.c" 4 CopyOk]).
      + lia.
      + reflexivity. }
  assert (Hfails : fails init ["sub"] ∅ (Unreadable "locked" PermissionError))
    by (left; eexists _, _; reflexivity).
  split; [exact Hrel |]. split; [exact Hfails |].
  apply (proj2 (proj2 entry_errors_do_not_abort) init _ [] 0 locked_tree
           plain_tree ["sub"] ∅ initial Hrel Hfails).
Defined.

(** The two runs of the witness, side by side. *)
Example locked_tree_runs :
  backup_directory init [] plain_tree 0 initial =
  {| st_stats := {| copied := 4; skipped := 0; errors := 0; size_copied := 15 |};
     st_trace := [ LoadGitignore []; Iterdir [];
                   ClassifyFile ["a.c"] false; Copy2 ["a.c"];
                   ClassifyDirectory ["sub"] false;
                   LoadGitignore ["sub"]; Iterdir ["sub"];
                   ClassifyFile ["sub"; "x.c"] false; Copy2 ["sub"; "x.c"];
                   ClassifyFile ["sub"; "y.c"] false; Copy2 ["sub"; "y.c"];
                   ClassifyFile ["b.c"] false; Copy2 ["b.c"] ] |} /\
  backup_directory init [] locked_tree 0 initial =
  {| st_stats := {| copied := 4; skipped := 0; errors := 1; size_copied := 15 |};
     st_trace := [ LoadGitignore []; Iterdir [];
                   ClassifyFile ["a.c"] false; Copy2 ["a.c"];
                   ClassifyDirectory ["sub"] false;
                   LoadGitignore ["sub"]; Iterdir ["sub"];
                   ClassifyFile ["sub"; "x.c"] false; Copy2 ["sub"; "x.c"];
                   Log WARNING (PermissionDenied ["sub"; "locked"]);
                   ClassifyFile ["sub"; "y.c"] false; Copy2 ["sub"; "y.c"];
                   ClassifyFile ["b.c"] false; Copy2 ["b.c"] ] |}.
Proof. split; vm_compute; reflexivity. Qed.
